(** * VoiceCompanion: the procedural audio fallback of the music route

    A shallow embedding of [backend/src/routes/music.ts]:
    - the Node [Buffer] primitives the route calls, with their range checks;
    - [createWavFile], the 44-byte container header encoder;
    - [generateSimpleTone], the scale-melody synthesizer;
    - [generateMusicFallback] and the [POST /generate] handler, as programs
      of a small exception-and-trace monad over a [World] of providers.

    Numbers: every integer quantity of the source (sizes, offsets, indices,
    header fields, sample values after [Math.floor]) is a [Z].  The waveform
    itself is computed by the source in IEEE-754 doubles; here it is computed
    in the real numbers [R] with the Standard Library's [sin] and [PI], the
    usual idealisation of floating point.  [musicLengthMs] ranges over
    "omitted" and the integers, as the request contract declares it.
    Node's allocation limit [buffer.constants.MAX_LENGTH] differs between
    builds and is a parameter, [kMaxLength]; error texts are those of
    Node 20. *)

From stdpp Require Import base list list_numbers strings pretty gmap.
From Stdlib Require Import ZArith Lia Reals Lra Zfloor QArith.

Local Open Scope Z_scope.

(** ** JavaScript values, errors and results *)

(** A JavaScript string is a sequence of UTF-16 code units. *)
Definition jsstring := list Z.

(** The values a JSON body field can hold; [JObject] stands for any object
    or array. *)
Inductive jsval :=
  | JUndefined
  | JNull
  | JBool (b : bool)
  | JNum (z : Z)
  | JStr (s : jsstring)
  | JObject.

(** A thrown [Error]; only its [message] is ever inspected by the route.
    Every thrown value is taken to be an object with a string [message], as
    Node's own errors and those of axios are; a rejection with [null] or
    [undefined], on which reading [.message] would itself throw, is not
    represented. *)
Record JsError := MkError { message : string }.

Inductive result (A : Type) :=
  | Ok (a : A)
  | Throw (e : JsError).
Arguments Ok {A} a.
Arguments Throw {A} e.

#[global] Instance result_ret : MRet result := λ A a, Ok a.
#[global] Instance result_bind : MBind result := λ A B f m,
  match m with
  | Ok a => f a
  | Throw e => Throw e
  end.

(** The double-quote character, for the texts that contain one. *)
Definition dquote : string := String (Ascii.ascii_of_nat 34) EmptyString.

(** ** Node's Buffer *)

Module Buffer.

(** A buffer is its sequence of bytes, each in [0, 256). *)
Definition t := list Z.

(** [ERR_OUT_OF_RANGE], as [lib/internal/errors.js] words it.  The received
    value is printed in plain decimal; Node groups the digits of values beyond
    2^32 with underscores, which this wording leaves out. *)
Definition ERR_OUT_OF_RANGE (name range : string) (received : Z) : JsError :=
  MkError ("The value of " +:+ dquote +:+ name +:+ dquote +:+ " is out of range. It must be "
           +:+ range +:+ ". Received " +:+ pretty received).

Definition ERR_BUFFER_OUT_OF_BOUNDS : JsError :=
  MkError "Attempt to access memory outside buffer bounds".

(** [Buffer.alloc(size)] for a literal size: zero-filled. *)
Definition alloc (size : nat) : t := replicate size 0.

(** [Buffer.allocUnsafe(size)]: throws unless [0 <= size <= kMaxLength];
    the memory returned is not initialised, [garbage] gives its bytes. *)
Definition allocUnsafe (kMaxLength : Z) (garbage : nat → Z) (size : Z) : result t :=
  if (size <? 0) || (kMaxLength <? size)
  then Throw (ERR_OUT_OF_RANGE "size" (">= 0 && <= " +:+ pretty kMaxLength) size)
  else Ok (garbage <$> seq 0 (Z.to_nat size)).

(** The bytes of an ASCII string literal. *)
Fixpoint bytes_of_string (s : string) : list Z :=
  match s with
  | EmptyString => []
  | String c s' => Z.of_nat (Ascii.nat_of_ascii c) :: bytes_of_string s'
  end.

(** [buf.write(string, offset)]: copies what fits. *)
Definition write (buf : t) (s : string) (offset : nat) : t :=
  list_inserts offset (take (length buf - offset)%nat (bytes_of_string s)) buf.

(** Storing a number in a [Uint8Array] slot keeps its low eight bits. *)
Definition toUint8 (v : Z) : Z := Z.land v 255.

(** The offset check shared by the integer writers.  The route writes only
    at literal offsets inside the buffer, so the writers below report every
    failed check with the one error [ERR_BUFFER_OUT_OF_BOUNDS]. *)
Definition checkBounds (buf : t) (offset width : Z) : bool :=
  (0 <=? offset) && (offset + width <=? Z.of_nat (length buf)).

(** [writeU_Int16LE] of [lib/internal/buffer.js]. *)
Definition writeU_Int16LE (buf : t) (value offset min max : Z) : result t :=
  if (max <? value) || (value <? min)
  then Throw (ERR_OUT_OF_RANGE "value" (">= " +:+ pretty min +:+ " and <= " +:+ pretty max) value)
  else if negb (checkBounds buf offset 2) then Throw ERR_BUFFER_OUT_OF_BOUNDS
  else
    let o := Z.to_nat offset in
    Ok (<[S o := toUint8 (Z.shiftr value 8)]> (<[o := toUint8 value]> buf)).

(** [writeU_Int32LE] of [lib/internal/buffer.js]. *)
Definition writeU_Int32LE (buf : t) (value offset min max : Z) : result t :=
  if (max <? value) || (value <? min)
  then Throw (ERR_OUT_OF_RANGE "value" (">= " +:+ pretty min +:+ " and <= " +:+ pretty max) value)
  else if negb (checkBounds buf offset 4) then Throw ERR_BUFFER_OUT_OF_BOUNDS
  else
    let o := Z.to_nat offset in
    Ok (<[S (S (S o)) := toUint8 (Z.shiftr value 24)]>
        (<[S (S o) := toUint8 (Z.shiftr value 16)]>
         (<[S o := toUint8 (Z.shiftr value 8)]>
          (<[o := toUint8 value]> buf)))).

Definition writeInt16LE (buf : t) (value offset : Z) : result t :=
  writeU_Int16LE buf value offset (-32768) 32767.

Definition writeUInt16LE (buf : t) (value offset : Z) : result t :=
  writeU_Int16LE buf value offset 0 65535.

Definition writeUInt32LE (buf : t) (value offset : Z) : result t :=
  writeU_Int32LE buf value offset 0 4294967295.

(** [Buffer.concat([a, b])], for operands whose joint length is within the
    buffer limit of the running Node; the allocation of the result and its
    limit are not represented. *)
Definition concat2 (a b : t) : t := a ++ b.

End Buffer.

(** ** The container encoder *)

Definition createWavFile (audioData : Buffer.t) (sampleRate : Z) : result Buffer.t :=
  let numChannels := 1 in
  let bitsPerSample := 16 in
  let byteRate := sampleRate * numChannels * bitsPerSample / 8 in
  let blockAlign := numChannels * bitsPerSample / 8 in
  let dataSize := Z.of_nat (length audioData) in
  let fileSize := 36 + dataSize in
  let wavHeader := Buffer.alloc 44 in
  (* RIFF header *)
  let wavHeader := Buffer.write wavHeader "RIFF" 0 in
  wavHeader ← Buffer.writeUInt32LE wavHeader fileSize 4;
  let wavHeader := Buffer.write wavHeader "WAVE" 8 in
  (* fmt chunk *)
  let wavHeader := Buffer.write wavHeader "fmt " 12 in
  wavHeader ← Buffer.writeUInt32LE wavHeader 16 16;
  wavHeader ← Buffer.writeUInt16LE wavHeader 1 20;
  wavHeader ← Buffer.writeUInt16LE wavHeader numChannels 22;
  wavHeader ← Buffer.writeUInt32LE wavHeader sampleRate 24;
  wavHeader ← Buffer.writeUInt32LE wavHeader byteRate 28;
  wavHeader ← Buffer.writeUInt16LE wavHeader blockAlign 32;
  wavHeader ← Buffer.writeUInt16LE wavHeader bitsPerSample 34;
  (* data chunk *)
  let wavHeader := Buffer.write wavHeader "data" 36 in
  wavHeader ← Buffer.writeUInt32LE wavHeader dataSize 40;
  mret (Buffer.concat2 wavHeader audioData).

(** ** The synthesizer *)

Definition Math_floor (x : R) : Z := Zfloor x.

Definition sampleRate : Z := 44100.

(** C major scale: C, D, E, F, G, A, B, C. *)
Definition scale : list R :=
  [261.63; 293.66; 329.63; 349.23; 392.00; 440.00; 493.88; 523.25]%R.

Definition notesPerSecond : Z := 2.
Definition samplesPerNote : Z := sampleRate / notesPerSecond.
Definition numSamples (durationSeconds : Z) : Z := sampleRate * durationSeconds.
(** [Math.ceil] of a product of integers is that product. *)
Definition totalNotes (durationSeconds : Z) : Z := durationSeconds * notesPerSecond.

(** The loop body of [generateSimpleTone], constant by constant.  [%] is
    JavaScript's remainder ([Z.rem]); [scale[k]] is read with a default that
    no index of the loop reaches. *)
Definition noteIndex (durationSeconds i : Z) : Z :=
  Z.rem (i / samplesPerNote) (totalNotes durationSeconds).

Definition scaleIndex (durationSeconds i : Z) : Z :=
  Z.rem (noteIndex durationSeconds i) (Z.of_nat (length scale)).

Definition frequency (durationSeconds i : Z) : R :=
  nth (Z.to_nat (scaleIndex durationSeconds i)) scale 0%R.

Definition sample (durationSeconds i : Z) : R :=
  let baseFreq := frequency durationSeconds i in
  let harmonyFreq := (frequency durationSeconds i * 0.5)%R in
  let t := (IZR i / IZR sampleRate)%R in
  let sample1 := sin (2 * PI * baseFreq * t) in
  let sample2 := (sin (2 * PI * harmonyFreq * t) * 0.5)%R in
  ((sample1 + sample2) / 1.5)%R.

Definition envelope (i : Z) : R :=
  let notePosition := (IZR (Z.rem i samplesPerNote) / IZR samplesPerNote)%R in
  if Rlt_dec notePosition 0.1 then (notePosition / 0.1)%R
  else if Rgt_dec notePosition 0.9 then ((1 - notePosition) / 0.1)%R
  else 1%R.

Definition globalEnvelope (durationSeconds i : Z) : R :=
  Rmin 1 (Rmin (IZR i / (IZR sampleRate * 0.1))
               (IZR (numSamples durationSeconds - i) / (IZR sampleRate * 0.1))).

(** The sample value, computed over the real numbers: the doubles of the
    code agree with it up to their rounding error, so the stored integer can
    differ by one where the exact value is an integer. *)
Definition amplitude (durationSeconds i : Z) : Z :=
  Math_floor (sample durationSeconds i * envelope i
              * globalEnvelope durationSeconds i * 12000).

(** [for (let i = 0; i < numSamples; i++)], with [todo] the iterations left. *)
Fixpoint toneLoop (durationSeconds : Z) (todo : nat) (i : Z) (buffer : Buffer.t)
  : result Buffer.t :=
  match todo with
  | O => Ok buffer
  | S todo' =>
      buffer' ← Buffer.writeInt16LE buffer (amplitude durationSeconds i) (i * 2);
      toneLoop durationSeconds todo' (i + 1) buffer'
  end.

(** The part of [generateSimpleTone] before the encoder is called: the raw
    16-bit samples. *)
Definition synthesizePcm (kMaxLength : Z) (garbage : nat → Z) (durationSeconds : Z)
  : result Buffer.t :=
  buffer ← Buffer.allocUnsafe kMaxLength garbage (numSamples durationSeconds * 2);
  toneLoop durationSeconds (Z.to_nat (numSamples durationSeconds)) 0 buffer.

Definition generateSimpleTone (kMaxLength : Z) (garbage : nat → Z) (durationSeconds : Z)
  : result Buffer.t :=
  buffer ← synthesizePcm kMaxLength garbage durationSeconds;
  createWavFile buffer sampleRate.

(** ** The request, the providers and the response *)

(** The options forwarded verbatim to the primary provider. *)
Record MusicOptions := {
  opt_musicLengthMs : option Z;
  opt_modelId : jsval;
  opt_forceInstrumental : jsval;
  opt_respectSectionsDurations : jsval;
  opt_storeForInpainting : jsval;
  opt_signWithC2pa : jsval;
}.

(** [req.body].  [musicLengthMs] is [None] when omitted. *)
Record Body := {
  prompt : jsval;
  musicLengthMs : option Z;
  modelId : jsval;
  forceInstrumental : jsval;
  respectSectionsDurations : jsval;
  storeForInpainting : jsval;
  signWithC2pa : jsval;
}.

(** What a request can observe of its surroundings: the two remote services
    (an answer or a thrown error for every call), the process environment,
    the clock, and Node's allocator. *)
Record World := {
  elevenLabs_generateMusic : jsstring → MusicOptions → result Buffer.t;
  (** [axios.post(url, { inputs, parameters: { duration } }, { headers })];
      [Ok data] carries [response.data], [None] when it is absent. *)
  axios_post : string → jsstring → Z → string → result (option Buffer.t);
  HUGGINGFACE_API_KEY : option string;
  Date_now : Z;
  kMaxLength : Z;
  uninitialised : nat → Z;
}.

Inductive Level := Log | Warn | Error.

Inductive LogArg :=
  | LogText (s : jsstring)
  | LogError (e : JsError)
  | LogMessage (m : string).

(** What a run leaves behind: the calls made to each tier and the console
    lines, in order. *)
Inductive Event :=
  | PrimaryCall (prompt : jsstring) (options : MusicOptions)
  | SecondaryCall (url : string) (inputs : jsstring) (duration : Z) (authorization : string)
  | SynthCall (durationSeconds : Z)
  | Console (level : Level) (text : string) (args : list LogArg).

(** A computation that returns or throws, and records its events. *)
Record M (A : Type) := Run { outcome : result A; trace : list Event }.
Arguments Run {A} outcome trace.
Arguments outcome {A} m.
Arguments trace {A} m.

#[global] Instance M_ret : MRet M := λ A a, Run (Ok a) [].
#[global] Instance M_bind : MBind M := λ A B f m,
  match outcome m with
  | Ok a => Run (outcome (f a)) (trace m ++ trace (f a))
  | Throw e => Run (Throw e) (trace m)
  end.

Definition emit (e : Event) : M unit := Run (Ok ()) [e].

(** [try { body } catch (e) { handler(e) }] *)
Definition try_catch {A} (body : M A) (handler : JsError → M A) : M A :=
  match outcome body with
  | Ok _ => body
  | Throw e => Run (outcome (handler e)) (trace body ++ trace (handler e))
  end.

Definition console (level : Level) (text : string) (args : list LogArg) : M unit :=
  emit (Console level text args).

(** The three kinds of call that can produce audio. *)
Definition callPrimary (w : World) (prompt : jsstring) (options : MusicOptions) : M Buffer.t :=
  Run (elevenLabs_generateMusic w prompt options) [PrimaryCall prompt options].

Definition callSecondary (w : World) (url : string) (inputs : jsstring) (duration : Z)
    (authorization : string) : M (option Buffer.t) :=
  Run (axios_post w url inputs duration authorization)
      [SecondaryCall url inputs duration authorization].

Definition callSynth (w : World) (durationSeconds : Z) : M Buffer.t :=
  Run (generateSimpleTone (kMaxLength w) (uninitialised w) durationSeconds)
      [SynthCall durationSeconds].

Inductive Response :=
  | Send (headers : gmap string string) (body : Buffer.t)
  | Json (status : Z) (error : string) (message : string).

(** ** The fallback chain *)

Definition models : list string :=
  ["facebook/musicgen-small"; "facebook/musicgen-medium"; "audiocraft/musicgen-small"].

(** [`https://api-inference.huggingface.co/models/${model}`] *)
Definition modelUrl (model : string) : string :=
  "https://api-inference.huggingface.co/models/" +:+ model.

(** [process.env.HUGGINGFACE_API_KEY || ''] *)
Definition apiKey (w : World) : string :=
  match HUGGINGFACE_API_KEY w with
  | Some k => k
  | None => ""
  end.

(** One turn of [for (const model of models)]: [Some buffer] when the turn
    executes [return], [None] when the loop goes on to the next model. *)
Definition tryModel (w : World) (prompt : jsstring) (durationSeconds : Z) (model : string)
  : M (option Buffer.t) :=
  try_catch
    (data ← callSecondary w (modelUrl model) prompt (Z.min durationSeconds 30)
              ("Bearer " +:+ apiKey w);
     match data with
     | Some bytes =>
         if (0 <? Z.of_nat (length bytes))
         then console Log ("Successfully generated music using " +:+ model) [];;
              mret (Some bytes)
         else mret None
     | None => mret None
     end)
    (λ modelError,
       console Warn ("Model " +:+ model +:+ " failed:") [LogMessage (message modelError)];;
       mret None).

Fixpoint tryModels (w : World) (prompt : jsstring) (durationSeconds : Z) (ms : list string)
  : M (option Buffer.t) :=
  match ms with
  | [] => mret None
  | model :: rest =>
      r ← tryModel w prompt durationSeconds model;
      match r with
      | Some bytes => mret (Some bytes)
      | None => tryModels w prompt durationSeconds rest
      end
  end.

Definition generateMusicFallback (w : World) (prompt : jsstring) (durationSeconds : Z)
  : M Buffer.t :=
  try_catch
    (console Log "Using open source fallback music generation for prompt:"
       [LogText (take 50 prompt)];;
     r ← tryModels w prompt durationSeconds models;
     match r with
     | Some bytes => mret bytes
     | None => callSynth w durationSeconds
     end)
    (λ error,
       console Error "All fallback methods failed, generating simple tone:" [LogError error];;
       callSynth w durationSeconds).

(** ** The request handler *)

(** ECMAScript's WhiteSpace and LineTerminator code units, what [trim] strips. *)
Definition isWhiteSpace (c : Z) : bool :=
  bool_decide (c ∈ [9; 10; 11; 12; 13; 32; 160; 5760; 8232; 8233; 8239; 8287; 12288; 65279])
  || ((8192 <=? c) && (c <=? 8202)).

Fixpoint trimStart (s : jsstring) : jsstring :=
  match s with
  | [] => []
  | c :: s' => if isWhiteSpace c then trimStart s' else s
  end.

Definition trim (s : jsstring) : jsstring :=
  reverse (trimStart (reverse (trimStart s))).

Definition truthy (v : jsval) : bool :=
  match v with
  | JUndefined | JNull => false
  | JBool b => b
  | JNum z => negb (z =? 0)
  | JStr s => negb (bool_decide (s = []))
  | JObject => true
  end.

Definition isString (v : jsval) : bool :=
  match v with
  | JStr _ => true
  | _ => false
  end.

(** The text of a value that passed [typeof prompt === 'string']. *)
Definition asString (v : jsval) : jsstring :=
  match v with
  | JStr s => s
  | _ => []
  end.

(** [!prompt || typeof prompt !== 'string' || prompt.trim().length === 0] *)
Definition promptRejected (prompt : jsval) : bool :=
  negb (truthy prompt) || negb (isString prompt)
  || (length (trim (asString prompt)) =? 0)%nat.

(** [Math.floor((musicLengthMs || 30000) / 1000)], for a [musicLengthMs]
    that is omitted or an integer the doubles hold exactly. *)
Definition durationSeconds (musicLengthMs : option Z) : Z :=
  match musicLengthMs with
  | Some ms => if ms =? 0 then 30000 else ms
  | None => 30000
  end / 1000.

(** [String.prototype.includes] *)
Fixpoint includes (s sub : string) : bool :=
  String.prefix sub s
  || match s with
     | EmptyString => false
     | String _ s' => includes s' sub
     end.

Definition attachment (now : Z) (extension : string) : string :=
  "attachment; filename=" +:+ dquote +:+ "generated-music-" +:+ pretty now +:+ "."
  +:+ extension +:+ dquote.

(** The four [res.setHeader] calls. *)
Definition audioHeaders (w : World) (usedFallback : bool) (musicBuffer : Buffer.t)
  : gmap string string :=
  let headers : gmap string string :=
    <["Content-Disposition" := attachment (Date_now w) (if usedFallback then "wav" else "mp3")]>
    (<["Content-Length" := pretty (Z.of_nat (length musicBuffer))]>
     (<["Content-Type" := if usedFallback then "audio/wav" else "audio/mpeg"]> ∅)) in
  if usedFallback then <["X-Music-Source" := "fallback"]> headers else headers.

(** The outer [catch]: a status chosen from the error's message. *)
Definition errorResponse (error : JsError) : Response :=
  let m := message error in
  let errorMessage := if bool_decide (m = "") then "An error occurred while generating music" else m in
  let statusCode :=
    if includes m "API key" then 401
    else if includes m "Payment Required" || includes m "paid subscription"
            || includes m "upgrade your plan" then 402
    else if includes m "rate limit" then 429
    else if includes m "not available" || includes m "endpoint not found" then 404
    else 500 in
  Json statusCode "Failed to generate music" errorMessage.

(** The option object passed to [elevenLabsService.generateMusic]. *)
Definition optionsOf (body : Body) : MusicOptions :=
  {| opt_musicLengthMs := musicLengthMs body;
     opt_modelId := modelId body;
     opt_forceInstrumental := forceInstrumental body;
     opt_respectSectionsDurations := respectSectionsDurations body;
     opt_storeForInpainting := storeForInpainting body;
     opt_signWithC2pa := signWithC2pa body |}.

(** The provider chain of the handler: the buffer to send and [usedFallback]. *)
Definition produceMusic (w : World) (body : Body) : M (Buffer.t * bool) :=
  let prompt := asString (prompt body) in
  try_catch
    (musicBuffer ← callPrimary w prompt (optionsOf body);
     console Log "Music generated successfully using ElevenLabs" [];;
     mret (musicBuffer, false))
    (λ elevenLabsError,
       console Warn "ElevenLabs music generation failed, trying fallback:"
         [LogMessage (message elevenLabsError)];;
       try_catch
         (musicBuffer ← generateMusicFallback w prompt
                          (Z.min (durationSeconds (musicLengthMs body)) 30);
          console Log "Music generated successfully using open source fallback" [];;
          mret (musicBuffer, true))
         (λ fallbackError,
            console Warn "Fallback music generation failed, using simple tone generator:"
              [LogMessage (message fallbackError)];;
            musicBuffer ← callSynth w (Z.min (durationSeconds (musicLengthMs body)) 30);
            console Log "Music generated using simple tone fallback" [];;
            mret (musicBuffer, true))).

(** [router.post('/generate', ...)] *)
Definition handleGenerate (w : World) (body : Body) : M Response :=
  try_catch
    (if promptRejected (prompt body)
     then mret (Json 400 "Prompt is required"
                  "Please provide a text prompt describing the music you want to generate")
     else
       '(musicBuffer, usedFallback) ← produceMusic w body;
       mret (Send (audioHeaders w usedFallback musicBuffer) musicBuffer))
    (λ error,
       console Error "Music generation error:" [LogError error];;
       mret (errorResponse error)).

(** ** Reading a container back

    The route never reads what it wrote; these decoders state what a player
    finds at an offset. *)

(** The unsigned little-endian value of a run of bytes. *)
Fixpoint decodeLE (bytes : list Z) : Z :=
  match bytes with
  | [] => 0
  | b :: rest => b + 256 * decodeLE rest
  end.

(** The [width] bytes at [offset]. *)
Definition field (buf : Buffer.t) (offset width : nat) : list Z :=
  take width (drop offset buf).

Definition readUInt16LE (buf : Buffer.t) (offset : nat) : Z := decodeLE (field buf offset 2).
Definition readUInt32LE (buf : Buffer.t) (offset : nat) : Z := decodeLE (field buf offset 4).

(** Two's complement reading of a 16-bit field. *)
Definition readInt16LE (buf : Buffer.t) (offset : nat) : Z :=
  let v := readUInt16LE buf offset in
  if v <? 32768 then v else v - 65536.

(** The byte sequences the integer writers store. *)
Definition le16 (v : Z) : list Z :=
  [Buffer.toUint8 v; Buffer.toUint8 (Z.shiftr v 8)].
Definition le32 (v : Z) : list Z :=
  [Buffer.toUint8 v; Buffer.toUint8 (Z.shiftr v 8);
   Buffer.toUint8 (Z.shiftr v 16); Buffer.toUint8 (Z.shiftr v 24)].

(** The header [createWavFile] lays out, field by field. *)
Definition wavHeaderBytes (sampleRate dataSize : Z) : list Z :=
  Buffer.bytes_of_string "RIFF" ++ le32 (36 + dataSize) ++ Buffer.bytes_of_string "WAVE"
  ++ Buffer.bytes_of_string "fmt " ++ le32 16 ++ le16 1 ++ le16 1
  ++ le32 sampleRate ++ le32 (sampleRate * 1 * 16 / 8) ++ le16 (1 * 16 / 8) ++ le16 16
  ++ Buffer.bytes_of_string "data" ++ le32 dataSize.

(** The samples [from, from + count) as the bytes the loop stores. *)
Definition pcmBytes (d from count : Z) : list Z :=
  seqZ from count ≫= (λ i, le16 (amplitude d i)).

(** ** Tiers, durations and layouts: the vocabulary of the properties *)

Inductive Tier := Primary | Secondary | LocalSynthesis.

Definition tierOf (e : Event) : option Tier :=
  match e with
  | PrimaryCall _ _ => Some Primary
  | SecondaryCall _ _ _ _ => Some Secondary
  | SynthCall _ => Some LocalSynthesis
  | Console _ _ _ => None
  end.

(** The tier that produced the bytes of a successful run: the last one
    called. *)
Definition servingTier (tr : list Event) : option Tier := last (omap tierOf tr).

(** The durations handed to the fallback tiers during a run. *)
Definition fallbackDuration (e : Event) : option Z :=
  match e with
  | SecondaryCall _ _ duration _ => Some duration
  | SynthCall durationSeconds => Some durationSeconds
  | _ => None
  end.

Definition fallbackDurations (tr : list Event) : list Z := omap fallbackDuration tr.

(** A secondary provider's answer that the loop does not accept: a thrown
    error, no data, or data of length zero. *)
Definition secondaryFailed (r : result (option Buffer.t)) : Prop :=
  match r with
  | Throw _ => True
  | Ok None => True
  | Ok (Some bytes) => bytes = []
  end.

(** The call the loop makes for [model]. *)
Definition secondaryAnswer (w : World) (body : Body) (model : string)
  : result (option Buffer.t) :=
  axios_post w (modelUrl model) (asString (prompt body))
    (Z.min (Z.min (durationSeconds (musicLengthMs body)) 30) 30) ("Bearer " +:+ apiKey w).

(** A prompt the validation turns away: anything but a string, or a string
    of white space only (the empty string included). *)
Definition blankPrompt (v : jsval) : Prop :=
  match v with
  | JStr s => Forall (λ c, isWhiteSpace c = true) s
  | _ => True
  end.

(** What one failed turn of the model loop leaves in the trace. *)
Definition failedTurn (w : World) (text : jsstring) (d : Z) (model : string) : list Event :=
  SecondaryCall (modelUrl model) text (Z.min d 30) ("Bearer " +:+ apiKey w)
  :: match axios_post w (modelUrl model) text (Z.min d 30) ("Bearer " +:+ apiKey w) with
     | Throw e => [Console Warn ("Model " +:+ model +:+ " failed:") [LogMessage (message e)]]
     | Ok _ => []
     end.

(** A [musicLengthMs] from which a positive number of whole seconds results. *)
Definition wholeSeconds (musicLengthMs : option Z) : Prop :=
  match musicLengthMs with
  | None => True
  | Some ms => ms = 0 ∨ 1000 <= ms
  end.

(** Headers as the response section of the specification lays them out:
    MP3 for both remote tiers, WAV for local synthesis, a marker whenever the
    primary did not serve. *)
Definition headersAsSpecified (now : Z) (tier : Tier) (headers : gmap string string) : Prop :=
  headers !! "Content-Type"
    = Some (match tier with LocalSynthesis => "audio/wav" | _ => "audio/mpeg" end)
  ∧ headers !! "Content-Disposition"
    = Some (attachment now (match tier with LocalSynthesis => "wav" | _ => "mp3" end))
  ∧ (is_Some (headers !! "X-Music-Source") ↔ tier ≠ Primary).

(** Headers as the handler sets them: everything follows [usedFallback]. *)
Definition headersAsBuilt (now : Z) (tier : Tier) (headers : gmap string string) : Prop :=
  headers !! "Content-Type"
    = Some (match tier with Primary => "audio/mpeg" | _ => "audio/wav" end)
  ∧ headers !! "Content-Disposition"
    = Some (attachment now (match tier with Primary => "mp3" | _ => "wav" end))
  ∧ (is_Some (headers !! "X-Music-Source") ↔ tier ≠ Primary).

(** A container laid out as the encoder section describes, for this payload
    and sample rate. *)
Definition encodesAsSpecified (audioData : Buffer.t) (sampleRate : Z) : Prop :=
  ∃ header,
    createWavFile audioData sampleRate = Ok (header ++ audioData)
    ∧ length header = 44%nat
    ∧ Forall (λ b, 0 <= b < 256) header
    ∧ field header 0 4 = Buffer.bytes_of_string "RIFF"
    ∧ readUInt32LE header 4 = 36 + Z.of_nat (length audioData)
    ∧ field header 8 4 = Buffer.bytes_of_string "WAVE"
    ∧ field header 12 4 = Buffer.bytes_of_string "fmt "
    ∧ readUInt32LE header 16 = 16
    ∧ readUInt16LE header 20 = 1
    ∧ readUInt16LE header 22 = 1
    ∧ readUInt32LE header 24 = sampleRate
    ∧ readUInt32LE header 28 = sampleRate * 1 * 16 / 8
    ∧ readUInt16LE header 32 = 1 * 16 / 8
    ∧ readUInt16LE header 34 = 16
    ∧ field header 36 4 = Buffer.bytes_of_string "data"
    ∧ readUInt32LE header 40 = Z.of_nat (length audioData).

(** The sample formula in the words of the specification: [mod] for the two
    index reductions, [baseFreq / 2] for the harmony, the two envelopes and
    the factor 12000. *)
Definition specBaseFreq (durationSeconds i : Z) : R :=
  nth (Z.to_nat (((i / samplesPerNote) mod totalNotes durationSeconds) mod 8)) scale 0%R.

Definition specValue (durationSeconds i : Z) : R :=
  let baseFreq := specBaseFreq durationSeconds i in
  let t := (IZR i / 44100)%R in
  ((sin (2 * PI * baseFreq * t) + 0.5 * sin (2 * PI * (baseFreq / 2) * t)) / 1.5
   * envelope i * globalEnvelope durationSeconds i * 12000)%R.

(** Rounding toward zero. *)
Definition truncate (x : R) : Z := if Rle_dec 0 x then Zfloor x else Zceil x.

(** ** Three worlds to run the handler in *)

Definition networkError : JsError := MkError "Network Error".

(** Every remote provider throws. *)
Definition deadWorld : World :=
  {| elevenLabs_generateMusic := λ _ _, Throw (MkError "ElevenLabs API key is invalid");
     axios_post := λ _ _ _ _, Throw networkError;
     HUGGINGFACE_API_KEY := None;
     Date_now := 1700000000000;
     kMaxLength := 4294967296;
     uninitialised := λ _, 170 |}.

(** The primary throws, the first secondary model answers with zero bytes,
    the second with four. *)
Definition secondaryWorld : World :=
  {| elevenLabs_generateMusic := λ _ _, Throw (MkError "rate limit exceeded");
     axios_post := λ url _ _ _,
       if bool_decide (url = modelUrl "facebook/musicgen-small") then Ok (Some [])
       else if bool_decide (url = modelUrl "facebook/musicgen-medium")
            then Ok (Some [102; 76; 97; 67])
            else Throw networkError;
     HUGGINGFACE_API_KEY := Some "hf_token";
     Date_now := 1700000000000;
     kMaxLength := 4294967296;
     uninitialised := λ _, 0 |}.

(** The primary answers. *)
Definition healthyWorld : World :=
  {| elevenLabs_generateMusic := λ _ _, Ok [73; 68; 51];
     axios_post := λ _ _ _ _, Throw networkError;
     HUGGINGFACE_API_KEY := None;
     Date_now := 1700000000000;
     kMaxLength := 4294967296;
     uninitialised := λ _, 0 |}.

(** [{ prompt: "calm piano", musicLengthMs }] *)
Definition request (musicLengthMs : option Z) : Body :=
  {| prompt := JStr [99; 97; 108; 109; 32; 112; 105; 97; 110; 111];
     musicLengthMs := musicLengthMs;
     modelId := JUndefined;
     forceInstrumental := JUndefined;
     respectSectionsDurations := JUndefined;
     storeForInpainting := JUndefined;
     signWithC2pa := JUndefined |}.

(** A body whose only field is [prompt]. *)
Definition promptOnly (prompt : jsval) : Body :=
  {| prompt := prompt;
     musicLengthMs := None;
     modelId := JUndefined;
     forceInstrumental := JUndefined;
     respectSectionsDurations := JUndefined;
     storeForInpainting := JUndefined;
     signWithC2pa := JUndefined |}.

(** ** Scopes of the duration and sample properties *)

(** A [musicLengthMs] that is omitted or not negative. *)
Definition lengthNotNegative (musicLengthMs : option Z) : Prop :=
  match musicLengthMs with
  | None => True
  | Some ms => 0 <= ms
  end.

(** [v] is [x] rounded down, where [x] is known up to [tolerance]: the real
    value of an expression that the code evaluates in double arithmetic. *)
Definition flooredWithin (tolerance x : R) (v : Z) : Prop :=
  (IZR v - tolerance <= x < IZR v + 1 + tolerance)%R.

(** ** Observing the secondary calls of a run *)

(** The arguments of a call to a secondary model. *)
Definition secondaryCallOf (e : Event) : option (string * jsstring * Z * string) :=
  match e with
  | SecondaryCall url inputs duration authorization =>
      Some (url, inputs, duration, authorization)
  | _ => None
  end.

Definition secondaryCalls (tr : list Event) : list (string * jsstring * Z * string) :=
  omap secondaryCallOf tr.

(** The call the handler makes for [model], if it gets that far. *)
Definition expectedCall (w : World) (body : Body) (model : string)
  : string * jsstring * Z * string :=
  (modelUrl model, asString (prompt body),
   Z.min (durationSeconds (musicLengthMs body)) 30, "Bearer " +:+ apiKey w).

(** The durations the synthesizer was called with during a run. *)
Definition synthCallOf (e : Event) : option Z :=
  match e with
  | SynthCall durationSeconds => Some durationSeconds
  | _ => None
  end.

Definition synthCalls (tr : list Event) : list Z := omap synthCallOf tr.


(** ** The voice mode context

    [VoiceModeContext.tsx], the provider of the mobile application.  A render
    of the component fixes [isVoiceModeEnabled]; the functions it creates see
    that value for as long as they live.  Every rate and pitch is a decimal
    literal, kept here as the rational it denotes.  What a function does to
    the outside (state setters, storage, speech) is the list of its effects,
    in order. *)

Module VoiceModeContext.

Inductive HapticPattern := success | warning | danger | none.
Inductive VoiceMode := navigation | art | music | error | default.
Inductive SentimentTag := calm | warm | apologetic | firm | expressive.

Definition STORAGE_KEY : string := "@voicecompanion:voice_mode_enabled".

Definition HAPTIC_PATTERNS (pattern : HapticPattern) : list Z :=
  match pattern with
  | success => [100]
  | warning => [100; 50; 100]
  | danger => [100; 50; 100; 50; 100; 50; 100]
  | none => []
  end.

Record VoiceConfig := {
  rate : Q;
  pitch : Q;
  volume : Q;
  sentiment : SentimentTag;
}.

Definition VOICE_MODE_CONFIG (mode : VoiceMode) : VoiceConfig :=
  match mode with
  | navigation => {| rate := 0.85; pitch := 1.0; volume := 1.0; sentiment := calm |}
  | art => {| rate := 0.75; pitch := 1.1; volume := 1.0; sentiment := warm |}
  | music => {| rate := 0.7; pitch := 1.15; volume := 1.0; sentiment := expressive |}
  | error => {| rate := 0.8; pitch := 0.9; volume := 1.0; sentiment := apologetic |}
  | default => {| rate := 0.9; pitch := 1.0; volume := 1.0; sentiment := warm |}
  end.

(** The options object handed to [Speech.speak]. *)
Record SpeechOptions := {
  language : string;
  speech_pitch : Q;
  speech_rate : Q;
  speech_volume : Q;
}.

Inductive Platform := ios | android | web.

Inductive Effect :=
  | SetIsVoiceModeEnabled (value : bool)
  | SetIsWakeWordActive (value : bool)
  | SetIsLoading (value : bool)
  | StorageSetItem (key value : string)
  | SpeechSpeak (text : string) (options : SpeechOptions)
  | Vibrate (pattern : list Z)
  | ConsoleLog (line : string)
  | ConsoleError (line : string).

(** [speak(text, mode = 'default', sentiment?)] in a render where the state
    is [isVoiceModeEnabled]; an omitted argument is [None]. *)
Definition speak (isVoiceModeEnabled : bool) (text : string) (mode : option VoiceMode)
    (sentiment : option SentimentTag) : list Effect :=
  let mode := match mode with Some m => m | None => default end in
  if negb isVoiceModeEnabled
     && negb (match mode with error => true | _ => false end)
  then []
  else
    let config := VOICE_MODE_CONFIG mode in
    let finalSentiment :=
      match sentiment with Some s => s | None => VoiceModeContext.sentiment config end in
    let '(rate, pitch) :=
      match finalSentiment with
      | apologetic => (0.75, 0.85)
      | firm => (0.9, 0.95)
      | expressive => (0.7, 1.2)
      | warm => (0.8, 1.1)
      | calm => (0.85, 1.0)
      end%Q in
    [SpeechSpeak text
       {| language := "en"; speech_pitch := pitch; speech_rate := rate;
          speech_volume := volume config |}].

Definition triggerHaptic (os : Platform) (pattern : HapticPattern) : list Effect :=
  match os with
  | ios | android =>
      let patternArray := HAPTIC_PATTERNS pattern in
      if (0 <? length patternArray)%nat then [Vibrate patternArray] else []
  | web => []
  end.

Definition startWakeWordDetection (isVoiceModeEnabled : bool) : list Effect :=
  if negb isVoiceModeEnabled then []
  else [SetIsWakeWordActive true;
        ConsoleLog ("Wake word detection started. Listening for " +:+ dquote
                    +:+ "Hey Companion" +:+ dquote +:+ "...")].

Definition stopWakeWordDetection : list Effect := [SetIsWakeWordActive false].

(** [newValue.toString()] *)
Definition Boolean_toString (b : bool) : string := if b then "true" else "false".

(** [toggleVoiceMode], created in a render where the state is
    [isVoiceModeEnabled]; [setItem] tells whether [AsyncStorage.setItem]
    resolves.  The [speak] and [startWakeWordDetection] it calls are those of
    the same render. *)
Definition toggleVoiceMode (isVoiceModeEnabled : bool) (setItem : string → string → result ())
  : list Effect :=
  let newValue := negb isVoiceModeEnabled in
  SetIsVoiceModeEnabled newValue
  :: StorageSetItem STORAGE_KEY (Boolean_toString newValue)
  :: match setItem STORAGE_KEY (Boolean_toString newValue) with
     | Ok _ =>
         if newValue
         then speak isVoiceModeEnabled
                ("Voice mode enabled. Say " +:+ dquote +:+ "Hey Companion" +:+ dquote
                 +:+ " to activate commands.") (Some default) (Some warm)
              ++ startWakeWordDetection isVoiceModeEnabled
         else stopWakeWordDetection
              ++ speak isVoiceModeEnabled "Voice mode disabled." (Some default) (Some calm)
     | Throw _ => [ConsoleError "Failed to save voice mode preference:"]
     end.

(** The first [useEffect]: [getItem] resolves to the stored value, [None] for
    a missing key, or rejects. *)
Definition loadPreference (getItem : string → result (option string)) : list Effect :=
  match getItem STORAGE_KEY with
  | Ok value =>
      [SetIsVoiceModeEnabled (bool_decide (value = Some "true")); SetIsLoading false]
  | Throw _ => [SetIsLoading false]
  end.

(** The two state cells the effects above write, starting from
    [useState(false)] for both. *)
Fixpoint finalEnabled (state : bool) (effects : list Effect) : bool :=
  match effects with
  | [] => state
  | SetIsVoiceModeEnabled value :: rest => finalEnabled value rest
  | _ :: rest => finalEnabled state rest
  end.

(** [AsyncStorage] as a map from keys to strings, once the writes among
    [effects] have gone through. *)
Definition storageAfter (storage : gmap string string) (effects : list Effect)
  : gmap string string :=
  foldl (λ st e, match e with StorageSetItem k v => <[k := v]> st | _ => st end)
        storage effects.

End VoiceModeContext.

(** Side conditions of the header writes: a value inside its field's range,
    an offset inside the 44 bytes. *)
Ltac field_ok := first [ reflexivity | Z.div_mod_to_equations; lia ].

(** * Properties *)

Lemma toUint8_mod v : Buffer.toUint8 v = v mod 256.
Proof. unfold Buffer.toUint8. change 255 with (Z.ones 8). now rewrite Z.land_ones by lia. Qed.

Lemma toUint8_range v : 0 <= Buffer.toUint8 v < 256.
Proof. rewrite toUint8_mod. apply Z.mod_pos_bound. lia. Qed.

(** Whatever the value, the two bytes written hold it modulo [2^16]. *)
Lemma decodeLE_le16_mod v : decodeLE (le16 v) = v mod 65536.
Proof.
  unfold le16, decodeLE. rewrite !toUint8_mod, !Z.shiftr_div_pow2 by lia.
  change (2 ^ 8) with 256.
  pose proof (Z.div_mod v 256 ltac:(lia)). pose proof (Z.mod_pos_bound v 256 ltac:(lia)).
  pose proof (Z.div_mod (v / 256) 256 ltac:(lia)).
  pose proof (Z.mod_pos_bound (v / 256) 256 ltac:(lia)).
  apply (Z.mod_unique_pos v 65536 (v / 256 / 256)); lia.
Qed.

Lemma decodeLE_le32_mod v : decodeLE (le32 v) = v mod 4294967296.
Proof.
  unfold le32, decodeLE. rewrite !toUint8_mod, !Z.shiftr_div_pow2 by lia.
  change (2 ^ 8) with 256. change (2 ^ 16) with (256 * 256).
  change (2 ^ 24) with (256 * 256 * 256).
  rewrite <- !Z.div_div by lia.
  pose proof (Z.div_mod v 256 ltac:(lia)). pose proof (Z.mod_pos_bound v 256 ltac:(lia)).
  pose proof (Z.div_mod (v / 256) 256 ltac:(lia)).
  pose proof (Z.mod_pos_bound (v / 256) 256 ltac:(lia)).
  pose proof (Z.div_mod (v / 256 / 256) 256 ltac:(lia)).
  pose proof (Z.mod_pos_bound (v / 256 / 256) 256 ltac:(lia)).
  pose proof (Z.div_mod (v / 256 / 256 / 256) 256 ltac:(lia)).
  pose proof (Z.mod_pos_bound (v / 256 / 256 / 256) 256 ltac:(lia)).
  apply (Z.mod_unique_pos v 4294967296 (v / 256 / 256 / 256 / 256)); lia.
Qed.

Lemma decodeLE_le16 v : 0 <= v < 65536 → decodeLE (le16 v) = v.
Proof. intros Hv. rewrite decodeLE_le16_mod. now apply Z.mod_small. Qed.

Lemma decodeLE_le32 v : 0 <= v < 4294967296 → decodeLE (le32 v) = v.
Proof. intros Hv. rewrite decodeLE_le32_mod. now apply Z.mod_small. Qed.

(** A signed 16-bit value survives the write/read round trip. *)
Lemma readInt16LE_le16 v rest : -32768 <= v <= 32767 → readInt16LE (le16 v ++ rest) 0 = v.
Proof.
  intros Hv. unfold readInt16LE, readUInt16LE.
  change (field (le16 v ++ rest) 0 2) with (le16 v). rewrite decodeLE_le16_mod.
  destruct (Z.le_gt_cases 0 v) as [Hpos|Hneg].
  - rewrite Z.mod_small by lia. destruct (Z.ltb_spec v 32768); lia.
  - replace (v mod 65536) with (v + 65536)
      by (apply (Z.mod_unique_pos v 65536 (-1)); lia).
    destruct (Z.ltb_spec (v + 65536) 32768); lia.
Qed.
Lemma writeU_Int16LE_ok buf value offset min max :
  min <= value <= max → Buffer.checkBounds buf offset 2 = true →
  Buffer.writeU_Int16LE buf value offset min max =
    Ok (<[S (Z.to_nat offset) := Buffer.toUint8 (Z.shiftr value 8)]>
        (<[Z.to_nat offset := Buffer.toUint8 value]> buf)).
Proof.
  intros Hv Hb. unfold Buffer.writeU_Int16LE. rewrite Hb.
  destruct (Z.ltb_spec max value); [lia|].
  destruct (Z.ltb_spec value min); [lia|]. reflexivity.
Qed.

Lemma writeU_Int32LE_ok buf value offset min max :
  min <= value <= max → Buffer.checkBounds buf offset 4 = true →
  Buffer.writeU_Int32LE buf value offset min max =
    Ok (<[S (S (S (Z.to_nat offset))) := Buffer.toUint8 (Z.shiftr value 24)]>
        (<[S (S (Z.to_nat offset)) := Buffer.toUint8 (Z.shiftr value 16)]>
         (<[S (Z.to_nat offset) := Buffer.toUint8 (Z.shiftr value 8)]>
          (<[Z.to_nat offset := Buffer.toUint8 value]> buf)))).
Proof.
  intros Hv Hb. unfold Buffer.writeU_Int32LE. rewrite Hb.
  destruct (Z.ltb_spec max value); [lia|].
  destruct (Z.ltb_spec value min); [lia|]. reflexivity.
Qed.

Lemma writeU_Int32LE_range buf value offset min max :
  value < min ∨ max < value →
  ∃ e, Buffer.writeU_Int32LE buf value offset min max = Throw e.
Proof.
  intros Hv. unfold Buffer.writeU_Int32LE.
  destruct (Z.ltb_spec max value); [eauto|].
  destruct (Z.ltb_spec value min); [eauto|]. lia.
Qed.

(** ** The encoder *)


(** Inside the range of its 32-bit fields the encoder returns the header
    followed by the payload. *)
Lemma createWavFile_ok audioData sampleRate :
  0 <= sampleRate < 2147483648 →
  Z.of_nat (length audioData) <= 4294967259 →
  createWavFile audioData sampleRate =
    Ok (wavHeaderBytes sampleRate (Z.of_nat (length audioData)) ++ audioData).
Proof.
  intros Hsr Hlen. unfold createWavFile.
  unfold Buffer.writeUInt32LE, Buffer.writeUInt16LE.
  assert (Hbr : sampleRate * 1 * 16 / 8 = 2 * sampleRate) by (Z.div_mod_to_equations; lia).
  rewrite writeU_Int32LE_ok by field_ok. cbn [mbind result_bind].
  rewrite writeU_Int32LE_ok by field_ok. cbn [mbind result_bind].
  rewrite writeU_Int16LE_ok by field_ok. cbn [mbind result_bind].
  rewrite writeU_Int16LE_ok by field_ok. cbn [mbind result_bind].
  rewrite writeU_Int32LE_ok by field_ok. cbn [mbind result_bind].
  rewrite writeU_Int32LE_ok by field_ok. cbn [mbind result_bind].
  rewrite writeU_Int16LE_ok by field_ok. cbn [mbind result_bind].
  rewrite writeU_Int16LE_ok by field_ok. cbn [mbind result_bind].
  rewrite writeU_Int32LE_ok by field_ok. cbn [mbind result_bind].
  reflexivity.
Qed.

(** ** The waveform *)

Lemma samplesPerNote_eq : samplesPerNote = 22050.
Proof. reflexivity. Qed.

Lemma sample_bound d i : (-1 <= sample d i <= 1)%R.
Proof.
  unfold sample.
  pose proof (SIN_bound (2 * PI * frequency d i * (IZR i / IZR sampleRate))).
  pose proof (SIN_bound (2 * PI * (frequency d i * 0.5) * (IZR i / IZR sampleRate))).
  lra.
Qed.

Lemma notePosition_bound i :
  0 <= i → (0 <= IZR (Z.rem i samplesPerNote) / IZR samplesPerNote < 1)%R.
Proof.
  intros Hi. rewrite samplesPerNote_eq.
  pose proof (Z.rem_bound_pos i 22050 Hi ltac:(lia)) as [Hlo Hhi].
  apply IZR_le in Hlo. apply IZR_lt in Hhi. lra.
Qed.

Lemma envelope_bound i : 0 <= i → (0 <= envelope i <= 1)%R.
Proof.
  intros Hi. unfold envelope. pose proof (notePosition_bound i Hi).
  destruct (Rlt_dec _ _); [lra|]. destruct (Rgt_dec _ _); lra.
Qed.

Lemma globalEnvelope_bound d i :
  0 <= i <= numSamples d → (0 <= globalEnvelope d i <= 1)%R.
Proof.
  intros [Hlo Hhi]. unfold globalEnvelope.
  assert (0 <= IZR i)%R by (now apply IZR_le).
  assert (0 <= IZR (numSamples d - i))%R by (apply IZR_le; lia).
  change (IZR sampleRate) with 44100%R.
  split.
  - repeat apply Rmin_glb; lra.
  - apply Rmin_l.
Qed.

Lemma Math_floor_between lo hi x :
  (IZR lo <= x <= IZR hi)%R → lo <= Math_floor x <= hi.
Proof.
  intros [Hlo Hhi]. unfold Math_floor. split.
  - now apply Zfloor_lub.
  - rewrite <- (ZfloorZ hi). now apply Zfloor_le.
Qed.

(** The value handed to [writeInt16LE] stays within the headroom. *)
Lemma amplitude_bound d i :
  0 <= i <= numSamples d → -12000 <= amplitude d i <= 12000.
Proof.
  intros Hi. unfold amplitude. apply Math_floor_between.
  pose proof (sample_bound d i). pose proof (envelope_bound i (proj1 Hi)).
  pose proof (globalEnvelope_bound d i Hi).
  set (s := sample d i) in *. set (e := envelope i) in *.
  set (g := globalEnvelope d i) in *.
  assert (0 <= e * g <= 1)%R by nra.
  assert (-1 <= s * (e * g) <= 1)%R by nra.
  rewrite (Rmult_assoc s e g). lra.
Qed.

(** ** The sample loop *)

Lemma length_bind_le16 (f : Z → Z) (l : list Z) :
  length (l ≫= (λ i, le16 (f i))) = (2 * length l)%nat.
Proof.
  induction l as [|x l IH]; [reflexivity|].
  rewrite bind_cons, length_app, IH. cbn. lia.
Qed.

Lemma length_pcmBytes d from count :
  length (pcmBytes d from count) = (2 * Z.to_nat count)%nat.
Proof. unfold pcmBytes. now rewrite length_bind_le16, length_seqZ. Qed.

Lemma pcmBytes_nil d from : pcmBytes d from 0 = [].
Proof. reflexivity. Qed.

Lemma pcmBytes_cons d from count :
  0 < count →
  pcmBytes d from count = le16 (amplitude d from) ++ pcmBytes d (from + 1) (count - 1).
Proof. intros Hc. unfold pcmBytes. now rewrite seqZ_cons, bind_cons by lia. Qed.

Lemma pcmBytes_app d from n1 n2 :
  0 <= n1 → 0 <= n2 →
  pcmBytes d from (n1 + n2) = pcmBytes d from n1 ++ pcmBytes d (from + n1) n2.
Proof. intros H1 H2. unfold pcmBytes. now rewrite seqZ_app, bind_app by lia. Qed.

(** One store of the loop: the two bytes at [offset] are replaced, nothing
    else moves. *)
Lemma writeInt16LE_at pre a b rest v offset :
  -32768 <= v <= 32767 → offset = Z.of_nat (length pre) →
  Buffer.writeInt16LE (pre ++ a :: b :: rest) v offset = Ok (pre ++ le16 v ++ rest).
Proof.
  intros Hv ->. unfold Buffer.writeInt16LE. rewrite writeU_Int16LE_ok.
  - rewrite Nat2Z.id. f_equal.
    rewrite (insert_app_r_alt pre _ (length pre)) by lia.
    rewrite (insert_app_r_alt pre _ (S (length pre))) by lia.
    replace (length pre - length pre)%nat with 0%nat by lia.
    replace (S (length pre) - length pre)%nat with 1%nat by lia.
    reflexivity.
  - lia.
  - unfold Buffer.checkBounds. rewrite length_app. cbn [length].
    apply andb_true_intro. split; [apply Z.leb_le | apply Z.leb_le]; lia.
Qed.

(** Loop invariant: with [i] samples stored and [todo] left, the loop
    overwrites exactly the next [2 * todo] bytes, whatever they held. *)
Lemma toneLoop_writes d todo : ∀ i pre old post,
  0 <= i → i + Z.of_nat todo <= numSamples d →
  length pre = Z.to_nat (i * 2) → length old = (2 * todo)%nat →
  toneLoop d todo i (pre ++ old ++ post) = Ok (pre ++ pcmBytes d i (Z.of_nat todo) ++ post).
Proof.
  induction todo as [|todo IH]; intros i pre old post Hi Hend Hpre Hold.
  - destruct old; [|discriminate]. reflexivity.
  - destruct old as [|a [|b old]]; try (cbn in Hold; lia).
    cbn [toneLoop]. cbn [app].
    rewrite (writeInt16LE_at pre a b (old ++ post)); [| |lia].
    2:{ pose proof (amplitude_bound d i). lia. }
    cbn [mbind result_bind].
    replace (pre ++ le16 (amplitude d i) ++ old ++ post)
      with ((pre ++ le16 (amplitude d i)) ++ old ++ post) by (now rewrite <- app_assoc).
    rewrite IH.
    + rewrite (pcmBytes_cons d i (Z.of_nat (S todo))) by lia.
      replace (Z.of_nat (S todo) - 1) with (Z.of_nat todo) by lia.
      now rewrite <- !app_assoc.
    + lia.
    + lia.
    + rewrite length_app, Hpre. cbn [le16 length]. lia.
    + cbn in Hold. lia.
Qed.

Lemma allocUnsafe_ok kMaxLength garbage size :
  0 <= size <= kMaxLength →
  Buffer.allocUnsafe kMaxLength garbage size = Ok (garbage <$> seq 0 (Z.to_nat size)).
Proof.
  intros Hs. unfold Buffer.allocUnsafe.
  destruct (Z.ltb_spec size 0); [lia|]. destruct (Z.ltb_spec kMaxLength size); [lia|].
  reflexivity.
Qed.

Lemma allocUnsafe_throws kMaxLength garbage size :
  size < 0 ∨ kMaxLength < size →
  Buffer.allocUnsafe kMaxLength garbage size =
    Throw (Buffer.ERR_OUT_OF_RANGE "size" (">= 0 && <= " +:+ pretty kMaxLength) size).
Proof.
  intros Hs. unfold Buffer.allocUnsafe.
  destruct (Z.ltb_spec size 0); [reflexivity|].
  destruct (Z.ltb_spec kMaxLength size); [reflexivity|]. lia.
Qed.

(** The synthesizer returns the samples of the waveform and nothing of the
    memory it was handed. *)
Lemma synthesizePcm_ok kMaxLength garbage d :
  0 <= d → numSamples d * 2 <= kMaxLength →
  synthesizePcm kMaxLength garbage d = Ok (pcmBytes d 0 (numSamples d)).
Proof.
  intros Hd Hmax. unfold synthesizePcm.
  assert (0 <= numSamples d) by (unfold numSamples, sampleRate; lia).
  rewrite allocUnsafe_ok by lia. cbn [mbind result_bind].
  pose proof (toneLoop_writes d (Z.to_nat (numSamples d)) 0 []
                (garbage <$> seq 0 (Z.to_nat (numSamples d * 2))) []) as Hloop.
  rewrite app_nil_r in Hloop. cbn [app] in Hloop. rewrite Hloop.
  - now rewrite app_nil_r, Z2Nat.id.
  - lia.
  - lia.
  - reflexivity.
  - rewrite length_fmap, length_seq. lia.
Qed.

Lemma synthesizePcm_throws kMaxLength garbage d :
  d < 0 ∨ kMaxLength < numSamples d * 2 →
  synthesizePcm kMaxLength garbage d =
    Throw (Buffer.ERR_OUT_OF_RANGE "size" (">= 0 && <= " +:+ pretty kMaxLength)
             (numSamples d * 2)).
Proof.
  intros Hd. unfold synthesizePcm. rewrite allocUnsafe_throws; [reflexivity|].
  unfold numSamples, sampleRate in *. lia.
Qed.

(** Reading sample [k] of the stored bytes gives back the amplitude. *)
Lemma readInt16LE_pcmBytes d n k rest :
  0 <= k < n → n <= numSamples d →
  readInt16LE (pcmBytes d 0 n ++ rest) (2 * Z.to_nat k) = amplitude d k.
Proof.
  intros Hk Hn.
  replace n with (k + (n - k)) by lia.
  rewrite pcmBytes_app by lia. rewrite (pcmBytes_cons d (0 + k)) by lia.
  rewrite <- !app_assoc. cbn [Z.add].
  unfold readInt16LE, readUInt16LE, field.
  rewrite drop_app_length' by (now rewrite length_pcmBytes).
  pose proof (readInt16LE_le16 (amplitude d k)
                (pcmBytes d (k + 1) (n - k - 1) ++ rest)) as Hrt.
  unfold readInt16LE, readUInt16LE, field in Hrt. rewrite drop_0 in Hrt.
  apply Hrt. pose proof (amplitude_bound d k). lia.
Qed.

(** ** The container, as a player reads it *)

Lemma length_wavHeaderBytes sampleRate dataSize :
  length (wavHeaderBytes sampleRate dataSize) = 44%nat.
Proof. reflexivity. Qed.

Lemma wavHeaderBytes_bytes sampleRate dataSize :
  Forall (λ b, 0 <= b < 256) (wavHeaderBytes sampleRate dataSize).
Proof.
  unfold wavHeaderBytes, le32, le16. cbn [app Buffer.bytes_of_string].
  repeat (apply Forall_cons; split; [first [apply toUint8_range | vm_compute; intuition discriminate]|]).
  apply Forall_nil_2.
Qed.

(** Outside the range of its 32-bit fields the encoder throws. *)
Lemma createWavFile_out_of_range audioData sampleRate :
  sampleRate < 0 ∨ 2147483648 <= sampleRate ∨ 4294967259 < Z.of_nat (length audioData) →
  ∃ e, createWavFile audioData sampleRate = Throw e.
Proof.
  intros Hout. unfold createWavFile, Buffer.writeUInt32LE, Buffer.writeUInt16LE.
  destruct (Z.le_gt_cases (Z.of_nat (length audioData)) 4294967259) as [Hlen|Hlen].
  2:{ destruct (writeU_Int32LE_range (Buffer.write (Buffer.alloc 44) "RIFF" 0)
                  (36 + Z.of_nat (length audioData)) 4 0 4294967295) as [e He]; [lia|].
      rewrite He. eauto. }
  rewrite writeU_Int32LE_ok by field_ok. cbn [mbind result_bind].
  rewrite writeU_Int32LE_ok by field_ok. cbn [mbind result_bind].
  rewrite writeU_Int16LE_ok by field_ok. cbn [mbind result_bind].
  rewrite writeU_Int16LE_ok by field_ok. cbn [mbind result_bind].
  match goal with
  | |- ∃ e, (Buffer.writeU_Int32LE ?b sampleRate 24 0 4294967295 ≫= _) = _ =>
      destruct (Z.le_gt_cases 0 sampleRate) as [Hlo|Hlo];
      [destruct (Z.le_gt_cases sampleRate 4294967295) as [Hhi|Hhi]|];
      [|destruct (writeU_Int32LE_range b sampleRate 24 0 4294967295) as [e He];
        [lia|rewrite He; eauto]..]
  end.
  rewrite writeU_Int32LE_ok by field_ok. cbn [mbind result_bind].
  match goal with
  | |- ∃ e, (Buffer.writeU_Int32LE ?b ?v 28 0 4294967295 ≫= _) = _ =>
      destruct (writeU_Int32LE_range b v 28 0 4294967295) as [e He];
      [right; Z.div_mod_to_equations; lia | rewrite He; eauto]
  end.
Qed.

Lemma generateSimpleTone_ok kMaxLength garbage d :
  0 <= d <= 48695 → numSamples d * 2 <= kMaxLength →
  generateSimpleTone kMaxLength garbage d =
    Ok (wavHeaderBytes sampleRate (numSamples d * 2) ++ pcmBytes d 0 (numSamples d)).
Proof.
  intros Hd Hmax. unfold generateSimpleTone. rewrite synthesizePcm_ok by lia.
  cbn [mbind result_bind].
  assert (Hlen : Z.of_nat (length (pcmBytes d 0 (numSamples d))) = numSamples d * 2).
  { rewrite length_pcmBytes. unfold numSamples, sampleRate. lia. }
  rewrite createWavFile_ok.
  - now rewrite Hlen.
  - unfold sampleRate. lia.
  - rewrite Hlen. unfold numSamples, sampleRate. lia.
Qed.

Lemma generateSimpleTone_throws kMaxLength garbage d :
  d < 0 ∨ kMaxLength < numSamples d * 2 →
  generateSimpleTone kMaxLength garbage d =
    Throw (Buffer.ERR_OUT_OF_RANGE "size" (">= 0 && <= " +:+ pretty kMaxLength)
             (numSamples d * 2)).
Proof. intros Hd. unfold generateSimpleTone. now rewrite synthesizePcm_throws. Qed.

(** C5, as amended: for every PCM buffer of at most 1073741779 bytes (header
    and payload together then fit the smallest buffer limit of any Node
    build, 2^30 - 1) and every integer sample rate from 0 up to 2147483647,
    the encoder returns a 44-byte header followed by the payload; the header
    holds the tag RIFF at offsets 0-3, WAVE at 8-11, fmt at 12-15 and data at
    36-39, and its integer fields decode as little-endian numbers to
    36 + dataSize (offset 4), 16, 1, 1 channel, the sample rate, byte rate
    sampleRate * 1 * 16 / 8, block alignment 1 * 16 / 8, 16 bits per sample,
    and dataSize (offset 40). *)
Theorem createWavFile_layout audioData sampleRate :
  0 <= sampleRate < 2147483648 →
  Z.of_nat (length audioData) <= 1073741779 →
  encodesAsSpecified audioData sampleRate.
Proof.
  intros Hsr Hlen. exists (wavHeaderBytes sampleRate (Z.of_nat (length audioData))).
  split; [apply createWavFile_ok; lia|].
  split; [reflexivity|].
  split; [apply wavHeaderBytes_bytes|].
  assert (Hbr : sampleRate * 1 * 16 / 8 = 2 * sampleRate) by (Z.div_mod_to_equations; lia).
  unfold readUInt32LE, readUInt16LE.
  repeat split; try reflexivity.
  - change (field _ 4 4) with (le32 (36 + Z.of_nat (length audioData))).
    apply decodeLE_le32. lia.
  - change (field _ 24 4) with (le32 sampleRate). apply decodeLE_le32. lia.
  - change (field _ 28 4) with (le32 (sampleRate * 1 * 16 / 8)). apply decodeLE_le32. lia.
  - change (field _ 40 4) with (le32 (Z.of_nat (length audioData))). apply decodeLE_le32. lia.
Qed.

Lemma createWavFile_layout_witness : encodesAsSpecified [0; 128; 255; 127] 44100.
Proof. apply createWavFile_layout; cbn; lia. Defined.

(** C5, as stated, fails at the empty payload with sample rate 2147483648:
    the byte rate no longer fits its 32-bit field and [writeUInt32LE]
    throws. *)
Lemma createWavFile_rejects_rate_2147483648 : ¬ encodesAsSpecified [] 2147483648.
Proof. intros (header & Hrun & _). vm_compute in Hrun. discriminate Hrun. Qed.

(** C4: for every duration from 1 to 30 seconds the synthesizer returns a
    PCM buffer of exactly 44100 * durationSeconds samples of two bytes each,
    and the container made from it declares, at offset 40, a data size equal
    to the buffer's byte length and, at offset 4, a file size of 36 plus that
    data size. *)
Theorem tone_sizes kMaxLength garbage d :
  2646000 <= kMaxLength → 1 <= d <= 30 →
  ∃ pcm out,
    synthesizePcm kMaxLength garbage d = Ok pcm
    ∧ Z.of_nat (length pcm) = 44100 * d * 2
    ∧ createWavFile pcm sampleRate = Ok out
    ∧ generateSimpleTone kMaxLength garbage d = Ok out
    ∧ readUInt32LE out 40 = Z.of_nat (length pcm)
    ∧ readUInt32LE out 4 = 36 + Z.of_nat (length pcm).
Proof.
  intros Hmax Hd.
  assert (Hn : numSamples d = 44100 * d) by reflexivity.
  assert (Hlen : Z.of_nat (length (pcmBytes d 0 (numSamples d))) = 44100 * d * 2).
  { rewrite length_pcmBytes. lia. }
  exists (pcmBytes d 0 (numSamples d)),
    (wavHeaderBytes sampleRate (numSamples d * 2) ++ pcmBytes d 0 (numSamples d)).
  split; [apply synthesizePcm_ok; lia|].
  split; [exact Hlen|].
  split.
  { rewrite createWavFile_ok; [now rewrite Hlen, Hn | unfold sampleRate; lia | lia]. }
  split; [apply generateSimpleTone_ok; lia|].
  unfold readUInt32LE. rewrite Hlen, Hn. split.
  - change (field _ 40 4) with (le32 (44100 * d * 2)). apply decodeLE_le32. lia.
  - change (field _ 4 4) with (le32 (36 + 44100 * d * 2)). apply decodeLE_le32. lia.
Qed.

Lemma tone_sizes_witness :
  ∃ pcm out,
    synthesizePcm 4294967296 (λ _, 170) 30 = Ok pcm
    ∧ Z.of_nat (length pcm) = 44100 * 30 * 2
    ∧ createWavFile pcm sampleRate = Ok out
    ∧ generateSimpleTone 4294967296 (λ _, 170) 30 = Ok out
    ∧ readUInt32LE out 40 = Z.of_nat (length pcm)
    ∧ readUInt32LE out 4 = 36 + Z.of_nat (length pcm).
Proof. apply tone_sizes; lia. Defined.

(** ** The synthesized samples *)

(** C6: for every positive duration, every 16-bit sample the synthesizer
    writes has absolute value at most 12000; the one case in which it writes
    nothing is a buffer size above the allocator's limit. *)
Theorem samples_within_headroom kMaxLength garbage d :
  0 < d →
  match synthesizePcm kMaxLength garbage d with
  | Ok pcm =>
      Z.of_nat (length pcm) = numSamples d * 2
      ∧ ∀ k, 0 <= k < numSamples d → -12000 <= readInt16LE pcm (2 * Z.to_nat k) <= 12000
  | Throw _ => kMaxLength < numSamples d * 2
  end.
Proof.
  intros Hd. destruct (Z.le_gt_cases (numSamples d * 2) kMaxLength) as [Hfit|Hbig].
  - rewrite synthesizePcm_ok by lia. split.
    + rewrite length_pcmBytes. unfold numSamples, sampleRate. lia.
    + intros k Hk. rewrite <- (app_nil_r (pcmBytes d 0 (numSamples d))).
      rewrite readInt16LE_pcmBytes by lia. apply amplitude_bound. lia.
  - rewrite synthesizePcm_throws by lia. exact Hbig.
Qed.

Lemma samples_within_headroom_witness :
  match synthesizePcm 4294967296 (λ _, 170) 3 with
  | Ok pcm =>
      Z.of_nat (length pcm) = numSamples 3 * 2
      ∧ ∀ k, 0 <= k < numSamples 3 → -12000 <= readInt16LE pcm (2 * Z.to_nat k) <= 12000
  | Throw _ => 4294967296 < numSamples 3 * 2
  end.
Proof. apply samples_within_headroom; lia. Defined.

(** C7: synthesis is deterministic.  The synthesizer's only inputs are the
    duration, the allocator's limit and the uninitialised memory it is
    handed; for every duration, two calls return byte-identical results
    whatever that memory held. *)
Theorem generateSimpleTone_deterministic kMaxLength garbage1 garbage2 d :
  generateSimpleTone kMaxLength garbage1 d = generateSimpleTone kMaxLength garbage2 d.
Proof.
  destruct (Z.lt_ge_cases d 0) as [Hneg|Hpos].
  { now rewrite !generateSimpleTone_throws by lia. }
  destruct (Z.le_gt_cases (numSamples d * 2) kMaxLength) as [Hfit|Hbig].
  - unfold generateSimpleTone. now rewrite !synthesizePcm_ok by lia.
  - now rewrite !generateSimpleTone_throws by lia.
Qed.

(** The formula of the specification and the loop body compute the same
    real number. *)
Lemma specBaseFreq_frequency d i : 0 < d → 0 <= i → specBaseFreq d i = frequency d i.
Proof.
  intros Hd Hi. unfold specBaseFreq, frequency, scaleIndex, noteIndex.
  change (Z.of_nat (length scale)) with 8.
  assert (0 <= i / samplesPerNote) by (apply Z.div_pos; [lia | reflexivity]).
  assert (0 < totalNotes d) by (unfold totalNotes, notesPerSecond; lia).
  rewrite (Z.rem_mod_nonneg (i / samplesPerNote)) by lia.
  rewrite Z.rem_mod_nonneg; [reflexivity | | lia].
  apply Z.mod_pos_bound. lia.
Qed.

Lemma specValue_code d i :
  0 < d → 0 <= i →
  specValue d i = (sample d i * envelope i * globalEnvelope d i * 12000)%R.
Proof.
  intros Hd Hi. unfold specValue, sample. rewrite specBaseFreq_frequency by lia.
  change (IZR sampleRate) with 44100%R.
  replace (frequency d i / 2)%R with (frequency d i * 0.5)%R by lra.
  lra.
Qed.

(** What the synthesizer leaves at byte offset [2 * i]. *)
Lemma stored_sample kMaxLength garbage d i :
  0 <= d → numSamples d * 2 <= kMaxLength → 0 <= i < numSamples d →
  ∃ pcm,
    synthesizePcm kMaxLength garbage d = Ok pcm
    ∧ readInt16LE pcm (2 * Z.to_nat i) = amplitude d i.
Proof.
  intros Hd Hmax Hi. exists (pcmBytes d 0 (numSamples d)).
  split; [apply synthesizePcm_ok; lia|].
  rewrite <- (app_nil_r (pcmBytes d 0 (numSamples d))).
  now rewrite readInt16LE_pcmBytes by lia.
Qed.

(** C9, as amended: for every sample index i of a clip of 1 to 30 seconds,
    the synthesizer computes the sample as
    (sin(2*pi*baseFreq*t) + 0.5*sin(2*pi*(baseFreq/2)*t)) / 1.5, with
    t = i/44100 and baseFreq the scale entry at
    (floor(i / samplesPerNote) mod totalNotes) mod 8, multiplies it by the
    per-note envelope, the global fade and 12000, and rounds the result down
    (toward minus infinity, [Math.floor]) before writing it: the 16-bit value
    v stored at byte offset 2i satisfies v <= x < v + 1 for the value x of
    that expression, up to the rounding error of the double arithmetic in
    which the code evaluates it (below 1/100000). *)
Theorem sample_formula kMaxLength garbage d i :
  1 <= d <= 30 → numSamples d * 2 <= kMaxLength → 0 <= i < numSamples d →
  ∃ pcm,
    synthesizePcm kMaxLength garbage d = Ok pcm
    ∧ flooredWithin (1 / 100000) (specValue d i) (readInt16LE pcm (2 * Z.to_nat i)).
Proof.
  intros Hd Hmax Hi.
  destruct (stored_sample kMaxLength garbage d i) as (pcm & Hrun & Hread); [lia..|].
  exists pcm. split; [exact Hrun|].
  rewrite Hread. unfold amplitude, Math_floor, flooredWithin.
  rewrite <- specValue_code by lia.
  pose proof (Zfloor_bound (specValue d i)) as [Hlo Hhi]. lra.
Qed.

Lemma sample_formula_witness :
  ∃ pcm,
    synthesizePcm 4294967296 (λ _, 170) 1 = Ok pcm
    ∧ flooredWithin (1 / 100000) (specValue 1 44099)
        (readInt16LE pcm (2 * Z.to_nat 44099)).
Proof. apply sample_formula; unfold numSamples, sampleRate; lia. Defined.

(** The last sample of a one-second tone: both sines are in their negative
    half-period and the two envelopes are almost closed. *)
Lemma sin_negative_after_turns (turns : nat) (x : R) :
  (PI < x - 2 * INR turns * PI < 2 * PI)%R → (-1 <= sin x < 0)%R.
Proof.
  intros Hx. split; [apply SIN_bound|].
  replace x with (x - 2 * INR turns * PI + 2 * INR turns * PI)%R by lra.
  rewrite sin_period. apply sin_lt_0; lra.
Qed.

Lemma specValue_last_sample : (-1 < specValue 1 44099 < 0)%R.
Proof.
  unfold specValue.
  change (specBaseFreq 1 44099) with 293.66%R.
  assert (He : envelope 44099 = ((1 - 22049 / 22050) / 0.1)%R).
  { unfold envelope. change (IZR (Z.rem 44099 samplesPerNote)) with 22049%R.
    change (IZR samplesPerNote) with 22050%R.
    destruct (Rlt_dec _ _); [lra|]. destruct (Rgt_dec _ _); [reflexivity|lra]. }
  assert (Hg : globalEnvelope 1 44099 = (1 / (44100 * 0.1))%R).
  { unfold globalEnvelope. change (IZR (numSamples 1 - 44099)) with 1%R.
    change (IZR sampleRate) with 44100%R. change (IZR 44099) with 44099%R.
    rewrite (Rmin_right 1); [apply Rmin_right; lra|].
    etransitivity; [apply Rmin_r|lra]. }
  rewrite He, Hg.
  pose proof PI_RGT_0 as Hpi.
  assert (H1 : (-1 <= sin (2 * PI * 293.66 * (IZR 44099 / 44100)) < 0)%R).
  { apply (sin_negative_after_turns 293). rewrite INR_IZR_INZ.
    change (IZR (Z.of_nat 293)) with 293%R. lra. }
  assert (H2 : (-1 <= sin (2 * PI * (293.66 / 2) * (IZR 44099 / 44100)) < 0)%R).
  { apply (sin_negative_after_turns 146). rewrite INR_IZR_INZ.
    change (IZR (Z.of_nat 146)) with 146%R. lra. }
  lra.
Qed.

(** C9, as stated, fails at the last sample of a one-second tone: the value
    is a negative fraction, which [Math.floor] takes to -1 and rounding
    toward zero would take to 0. *)
Lemma last_sample_is_floored :
  ¬ ∃ pcm,
      synthesizePcm 4294967296 (λ _, 170) 1 = Ok pcm
      ∧ readInt16LE pcm (2 * Z.to_nat 44099) = truncate (specValue 1 44099).
Proof.
  intros (pcm & Hrun & Hread).
  destruct (stored_sample 4294967296 (λ _, 170) 1 44099) as (pcm' & Hrun' & Hread');
    [unfold numSamples, sampleRate; lia..|].
  rewrite Hrun in Hrun'. injection Hrun' as <-. rewrite Hread in Hread'.
  unfold amplitude in Hread'. rewrite <- specValue_code in Hread' by lia.
  pose proof specValue_last_sample as Hv.
  assert (Hfloor : Math_floor (specValue 1 44099) = -1).
  { apply Zfloor_eq. change (IZR (-1)) with (-1)%R. lra. }
  assert (Htrunc : truncate (specValue 1 44099) = 0).
  { unfold truncate. destruct (Rle_dec _ _); [lra|]. apply Zceil_eq. lra. }
  rewrite Hfloor, Htrunc in Hread'. discriminate Hread'.
Qed.

(** ** Runs of the trace monad *)

Lemma outcome_bind {A B} (m : M A) (f : A → M B) :
  outcome (m ≫= f) = match outcome m with Ok a => outcome (f a) | Throw e => Throw e end.
Proof. unfold mbind, M_bind. now destruct (outcome m). Qed.

Lemma trace_bind {A B} (m : M A) (f : A → M B) :
  trace (m ≫= f) = trace m ++ match outcome m with Ok a => trace (f a) | Throw _ => [] end.
Proof. unfold mbind, M_bind. destruct (outcome m); cbn; [reflexivity|now rewrite app_nil_r]. Qed.

Lemma outcome_try_catch {A} (m : M A) (h : JsError → M A) :
  outcome (try_catch m h) = match outcome m with Ok a => Ok a | Throw e => outcome (h e) end.
Proof. unfold try_catch. destruct (outcome m) eqn:Hm; [exact Hm|reflexivity]. Qed.

Lemma trace_try_catch {A} (m : M A) (h : JsError → M A) :
  trace (try_catch m h) = trace m ++ match outcome m with Ok _ => [] | Throw e => trace (h e) end.
Proof. unfold try_catch. destruct (outcome m); cbn; [now rewrite app_nil_r|reflexivity]. Qed.

Lemma Forall_trace_bind {A B} (P : Event → Prop) (m : M A) (f : A → M B) :
  Forall P (trace m) → (∀ a, outcome m = Ok a → Forall P (trace (f a))) →
  Forall P (trace (m ≫= f)).
Proof.
  intros Hm Hf. rewrite trace_bind. apply Forall_app. split; [exact Hm|].
  destruct (outcome m); [now apply Hf|apply Forall_nil_2].
Qed.

Lemma Forall_trace_try_catch {A} (P : Event → Prop) (m : M A) (h : JsError → M A) :
  Forall P (trace m) → (∀ e, outcome m = Throw e → Forall P (trace (h e))) →
  Forall P (trace (try_catch m h)).
Proof.
  intros Hm Hh. rewrite trace_try_catch. apply Forall_app. split; [exact Hm|].
  destruct (outcome m); [apply Forall_nil_2|now apply Hh].
Qed.

(** ** Which events a run can contain *)

Section Events.
Context (P : Event → Prop) (w : World) (text : jsstring) (d : Z).
Hypothesis console_ok : ∀ level line args, P (Console level line args).
Hypothesis secondary_ok : ∀ url authorization,
  P (SecondaryCall url text (Z.min d 30) authorization).
Hypothesis synth_ok : P (SynthCall d).

Lemma console_events level line args : Forall P (trace (console level line args)).
Proof. apply Forall_singleton, console_ok. Qed.

Lemma callSynth_events : Forall P (trace (callSynth w d)).
Proof. apply Forall_singleton, synth_ok. Qed.

Lemma tryModel_events model : Forall P (trace (tryModel w text d model)).
Proof.
  unfold tryModel. apply Forall_trace_try_catch.
  - apply Forall_trace_bind; [apply Forall_singleton, secondary_ok|].
    intros [bytes|] _; [|apply Forall_nil_2].
    destruct (0 <? Z.of_nat (length bytes)); [|apply Forall_nil_2].
    apply Forall_trace_bind; [apply console_events|]. intros; apply Forall_nil_2.
  - intros e _. apply Forall_trace_bind; [apply console_events|].
    intros; apply Forall_nil_2.
Qed.

Lemma tryModels_events ms : Forall P (trace (tryModels w text d ms)).
Proof.
  induction ms as [|model ms IH]; [apply Forall_nil_2|].
  cbn [tryModels]. apply Forall_trace_bind; [apply tryModel_events|].
  intros [bytes|] _; [apply Forall_nil_2|exact IH].
Qed.

Lemma generateMusicFallback_events : Forall P (trace (generateMusicFallback w text d)).
Proof.
  unfold generateMusicFallback. apply Forall_trace_try_catch.
  - apply Forall_trace_bind; [apply console_events|]. intros _ _.
    apply Forall_trace_bind; [apply tryModels_events|].
    intros [bytes|] _; [apply Forall_nil_2|apply callSynth_events].
  - intros e _. apply Forall_trace_bind; [apply console_events|].
    intros; apply callSynth_events.
Qed.
End Events.

(** ** The model loop *)

Lemma M_eq {A} (m : M A) o t : outcome m = o → trace m = t → m = Run o t.
Proof. destruct m. cbn. now intros -> ->. Qed.

Lemma M_ext {A} (m1 m2 : M A) : outcome m1 = outcome m2 → trace m1 = trace m2 → m1 = m2.
Proof. destruct m1, m2. cbn. now intros -> ->. Qed.

(** A failed turn, thrown or empty, hands over to the next model. *)
Lemma tryModel_failed w text d model :
  secondaryFailed (axios_post w (modelUrl model) text (Z.min d 30) ("Bearer " +:+ apiKey w)) →
  tryModel w text d model = Run (Ok None) (failedTurn w text d model).
Proof.
  intros Hfail. unfold tryModel, failedTurn, callSecondary.
  apply M_eq.
  - rewrite outcome_try_catch, outcome_bind. cbn [outcome].
    destruct (axios_post _ _ _ _ _) as [[bytes|]|e]; cbn in Hfail; subst; reflexivity.
  - rewrite trace_try_catch, trace_bind, outcome_bind. cbn [outcome trace].
    destruct (axios_post _ _ _ _ _) as [[bytes|]|e]; cbn in Hfail; subst; reflexivity.
Qed.

(** A turn that receives bytes returns them. *)
Lemma tryModel_served w text d model bytes :
  axios_post w (modelUrl model) text (Z.min d 30) ("Bearer " +:+ apiKey w) = Ok (Some bytes) →
  bytes ≠ [] →
  tryModel w text d model =
    Run (Ok (Some bytes))
        [SecondaryCall (modelUrl model) text (Z.min d 30) ("Bearer " +:+ apiKey w);
         Console Log ("Successfully generated music using " +:+ model) []].
Proof.
  intros Hans Hne. unfold tryModel, callSecondary. rewrite Hans.
  destruct bytes as [|b bytes]; [done|]. reflexivity.
Qed.

(** The loop returns the first non-empty payload; the failures before it
    only add their turns to the trace, and no later model is called. *)
Lemma tryModels_first_success w text d failed model rest bytes :
  Forall (λ m, secondaryFailed
                 (axios_post w (modelUrl m) text (Z.min d 30) ("Bearer " +:+ apiKey w))) failed →
  axios_post w (modelUrl model) text (Z.min d 30) ("Bearer " +:+ apiKey w) = Ok (Some bytes) →
  bytes ≠ [] →
  tryModels w text d (failed ++ model :: rest) =
    Run (Ok (Some bytes))
        ((failed ≫= failedTurn w text d)
         ++ [SecondaryCall (modelUrl model) text (Z.min d 30) ("Bearer " +:+ apiKey w);
             Console Log ("Successfully generated music using " +:+ model) []]).
Proof.
  intros Hfailed Hans Hne. induction Hfailed as [|m failed Hm _ IH].
  - cbn [app tryModels]. now rewrite (tryModel_served _ _ _ _ bytes).
  - cbn [app tryModels]. rewrite tryModel_failed by exact Hm.
    unfold mbind at 1, M_bind. cbn [outcome trace]. rewrite IH.
    cbn [outcome trace]. now rewrite bind_cons, <- app_assoc.
Qed.

(** When every model fails the loop falls through. *)
Lemma tryModels_all_failed w text d ms :
  Forall (λ m, secondaryFailed
                 (axios_post w (modelUrl m) text (Z.min d 30) ("Bearer " +:+ apiKey w))) ms →
  tryModels w text d ms = Run (Ok None) (ms ≫= failedTurn w text d).
Proof.
  intros Hfailed. induction Hfailed as [|m ms Hm _ IH]; [reflexivity|].
  cbn [tryModels]. rewrite tryModel_failed by exact Hm.
  unfold mbind at 1, M_bind. cbn [outcome trace]. rewrite IH.
  cbn [outcome trace]. now rewrite bind_cons.
Qed.

(** ** Validation *)

Lemma trimStart_blank s : Forall (λ c, isWhiteSpace c = true) s → trimStart s = [].
Proof. induction 1 as [|c s Hc _ IH]; [reflexivity|]. cbn [trimStart]. now rewrite Hc. Qed.

Lemma trimStart_nil_blank s : trimStart s = [] → Forall (λ c, isWhiteSpace c = true) s.
Proof.
  induction s as [|c s IH]; [constructor|]. cbn [trimStart].
  destruct (isWhiteSpace c) eqn:Hc; [|discriminate]. intros Hs. constructor; auto.
Qed.

Lemma trimStart_head s c rest : trimStart s = c :: rest → isWhiteSpace c = false.
Proof.
  induction s as [|c' s IH]; [discriminate|]. cbn [trimStart].
  destruct (isWhiteSpace c') eqn:Hc; [exact IH|]. now intros [= -> _].
Qed.

Lemma trim_nil_blank s : trim s = [] ↔ Forall (λ c, isWhiteSpace c = true) s.
Proof.
  unfold trim. split.
  - intros Ht. apply trimStart_nil_blank.
    destruct (trimStart s) as [|c rest] eqn:Hs; [reflexivity|]. exfalso.
    assert (Hrev : trimStart (reverse (c :: rest)) = []).
    { destruct (trimStart (reverse (c :: rest))); [reflexivity|].
      apply (f_equal length) in Ht. rewrite length_reverse in Ht. discriminate Ht. }
    apply trimStart_nil_blank, Forall_reverse, Forall_cons in Hrev as [Hc _].
    apply trimStart_head in Hs. congruence.
  - intros Hs. now rewrite (trimStart_blank s Hs).
Qed.

(** The validation turns away exactly the blank prompts. *)
Lemma promptRejected_blank v : promptRejected v = true ↔ blankPrompt v.
Proof.
  unfold promptRejected, blankPrompt.
  destruct v as [| | b | z | s |]; cbn [isString negb asString truthy];
    rewrite ?orb_true_r; try (split; [intros _; exact I | reflexivity]).
  rewrite <- trim_nil_blank. split.
  - intros Hr. destruct (trim s) as [|c rest] eqn:Ht; [reflexivity|]. exfalso.
    rewrite !orb_true_iff in Hr. destruct Hr as [[Hr|Hr]|Hr]; try discriminate Hr.
    rewrite negb_involutive in Hr. apply bool_decide_eq_true in Hr. subst s.
    discriminate Ht.
  - intros Hs. rewrite Hs. apply orb_true_r.
Qed.

(** ** Runs of the fallback chain and of the handler *)

Lemma generateMusicFallback_served w text d failed model rest bytes :
  models = failed ++ model :: rest →
  Forall (λ m, secondaryFailed
                 (axios_post w (modelUrl m) text (Z.min d 30) ("Bearer " +:+ apiKey w))) failed →
  axios_post w (modelUrl model) text (Z.min d 30) ("Bearer " +:+ apiKey w) = Ok (Some bytes) →
  bytes ≠ [] →
  generateMusicFallback w text d =
    Run (Ok bytes)
        (Console Log "Using open source fallback music generation for prompt:"
           [LogText (take 50 text)]
         :: (failed ≫= failedTurn w text d)
         ++ [SecondaryCall (modelUrl model) text (Z.min d 30) ("Bearer " +:+ apiKey w);
             Console Log ("Successfully generated music using " +:+ model) []]).
Proof.
  intros Hmodels Hfailed Hans Hne. unfold generateMusicFallback. rewrite Hmodels.
  rewrite (tryModels_first_success w text d failed model rest bytes) by assumption.
  unfold try_catch, mbind, M_bind, console, emit, mret, M_ret. cbn [outcome trace app].
  now rewrite app_nil_r.
Qed.

Lemma generateMusicFallback_local w text d :
  Forall (λ m, secondaryFailed
                 (axios_post w (modelUrl m) text (Z.min d 30) ("Bearer " +:+ apiKey w))) models →
  generateMusicFallback w text d =
    match generateSimpleTone (kMaxLength w) (uninitialised w) d with
    | Ok tone =>
        Run (Ok tone)
            (Console Log "Using open source fallback music generation for prompt:"
               [LogText (take 50 text)]
             :: (models ≫= failedTurn w text d) ++ [SynthCall d])
    | Throw e =>
        Run (Throw e)
            (Console Log "Using open source fallback music generation for prompt:"
               [LogText (take 50 text)]
             :: (models ≫= failedTurn w text d)
             ++ [SynthCall d;
                 Console Error "All fallback methods failed, generating simple tone:" [LogError e];
                 SynthCall d])
    end.
Proof.
  intros Hfailed. unfold generateMusicFallback.
  rewrite (tryModels_all_failed w text d models Hfailed).
  unfold try_catch, mbind, M_bind, console, emit, mret, M_ret, callSynth.
  cbn [outcome trace app].
  destruct (generateSimpleTone _ _ d) as [tone|e]; cbn [outcome trace app].
  - reflexivity.
  - now rewrite <- app_assoc.
Qed.

Lemma generateMusicFallback_starts w text d :
  ∃ rest,
    trace (generateMusicFallback w text d) =
      Console Log "Using open source fallback music generation for prompt:"
        [LogText (take 50 text)]
      :: SecondaryCall (modelUrl "facebook/musicgen-small") text (Z.min d 30)
           ("Bearer " +:+ apiKey w)
      :: rest.
Proof.
  unfold generateMusicFallback, models.
  rewrite trace_try_catch, trace_bind. cbn [console emit outcome trace].
  rewrite trace_bind. cbn [tryModels]. rewrite trace_bind.
  unfold tryModel at 1. rewrite trace_try_catch, trace_bind.
  cbn [callSecondary outcome trace]. rewrite <- !app_assoc. cbn [app]. eauto.
Qed.

Lemma produceMusic_primary w body buf :
  elevenLabs_generateMusic w (asString (prompt body)) (optionsOf body) = Ok buf →
  produceMusic w body =
    Run (Ok (buf, false))
        [PrimaryCall (asString (prompt body)) (optionsOf body);
         Console Log "Music generated successfully using ElevenLabs" []].
Proof. intros Hans. unfold produceMusic, callPrimary. now rewrite Hans. Qed.

(** After a primary failure the chain behaves as follows, whatever the
    secondaries do. *)
Lemma produceMusic_fallback w body e :
  elevenLabs_generateMusic w (asString (prompt body)) (optionsOf body) = Throw e →
  let text := asString (prompt body) in
  let d := Z.min (durationSeconds (musicLengthMs body)) 30 in
  let before :=
    [PrimaryCall text (optionsOf body);
     Console Warn "ElevenLabs music generation failed, trying fallback:"
       [LogMessage (message e)]] in
  produceMusic w body =
    match outcome (generateMusicFallback w text d) with
    | Ok buf =>
        Run (Ok (buf, true))
            (before ++ trace (generateMusicFallback w text d)
             ++ [Console Log "Music generated successfully using open source fallback" []])
    | Throw fallbackError =>
        let retry :=
          [Console Warn "Fallback music generation failed, using simple tone generator:"
             [LogMessage (message fallbackError)];
           SynthCall d] in
        match generateSimpleTone (kMaxLength w) (uninitialised w) d with
        | Ok tone =>
            Run (Ok (tone, true))
                (before ++ trace (generateMusicFallback w text d) ++ retry
                 ++ [Console Log "Music generated using simple tone fallback" []])
        | Throw e' =>
            Run (Throw e') (before ++ trace (generateMusicFallback w text d) ++ retry)
        end
    end.
Proof.
  intros Hans text d before. unfold produceMusic, callPrimary. rewrite Hans.
  fold text. fold d.
  unfold try_catch at 1. unfold mbind at 1, M_bind at 1. cbn [outcome trace].
  apply M_ext; cbn [outcome trace].
  - rewrite outcome_bind. cbn [console emit outcome]. rewrite outcome_try_catch, outcome_bind.
    destruct (outcome (generateMusicFallback w text d)) as [buf|fe]; [reflexivity|].
    rewrite !outcome_bind. cbn [console emit outcome callSynth].
    now destruct (generateSimpleTone _ _ d).
  - rewrite !trace_bind. cbn [console emit outcome trace].
    rewrite trace_try_catch, trace_bind, outcome_bind.
    destruct (outcome (generateMusicFallback w text d)) as [buf|fe].
    + rewrite trace_bind. cbn [console emit outcome trace mret M_ret app].
      now rewrite !app_nil_r.
    + rewrite !trace_bind. cbn [console emit outcome trace callSynth].
      rewrite ?outcome_bind. cbn [console emit outcome trace callSynth].
      destruct (generateSimpleTone _ _ d); cbn [app trace outcome mret M_ret];
        rewrite ?app_nil_r; reflexivity.
Qed.

Lemma handleGenerate_rejected w body :
  promptRejected (prompt body) = true →
  handleGenerate w body =
    Run (Ok (Json 400 "Prompt is required"
               "Please provide a text prompt describing the music you want to generate")) [].
Proof. intros Hrej. unfold handleGenerate. now rewrite Hrej. Qed.

Lemma handleGenerate_sends w body buf usedFallback tr :
  promptRejected (prompt body) = false →
  produceMusic w body = Run (Ok (buf, usedFallback)) tr →
  handleGenerate w body = Run (Ok (Send (audioHeaders w usedFallback buf) buf)) tr.
Proof.
  intros Hacc Hrun. unfold handleGenerate. rewrite Hacc, Hrun.
  unfold try_catch, mbind, M_bind, mret, M_ret. cbn [outcome trace]. now rewrite app_nil_r.
Qed.

Lemma handleGenerate_fails w body e tr :
  promptRejected (prompt body) = false →
  produceMusic w body = Run (Throw e) tr →
  handleGenerate w body =
    Run (Ok (errorResponse e)) (tr ++ [Console Error "Music generation error:" [LogError e]]).
Proof.
  intros Hacc Hrun. unfold handleGenerate. rewrite Hacc, Hrun. reflexivity.
Qed.

Lemma produceMusic_events (P : Event → Prop) w body :
  (∀ level line args, P (Console level line args)) →
  P (PrimaryCall (asString (prompt body)) (optionsOf body)) →
  (∀ url authorization,
     P (SecondaryCall url (asString (prompt body))
          (Z.min (Z.min (durationSeconds (musicLengthMs body)) 30) 30) authorization)) →
  P (SynthCall (Z.min (durationSeconds (musicLengthMs body)) 30)) →
  Forall P (trace (produceMusic w body)).
Proof.
  intros Hconsole Hprimary Hsecondary Hsynth. unfold produceMusic.
  apply Forall_trace_try_catch.
  - apply Forall_trace_bind; [apply Forall_singleton, Hprimary|]. intros buf _.
    apply Forall_trace_bind; [now apply console_events|]. intros; apply Forall_nil_2.
  - intros e _. apply Forall_trace_bind; [now apply console_events|]. intros _ _.
    apply Forall_trace_try_catch.
    + apply Forall_trace_bind; [now apply generateMusicFallback_events|]. intros buf _.
      apply Forall_trace_bind; [now apply console_events|]. intros; apply Forall_nil_2.
    + intros fe _. apply Forall_trace_bind; [now apply console_events|]. intros _ _.
      apply Forall_trace_bind; [now apply callSynth_events|]. intros buf _.
      apply Forall_trace_bind; [now apply console_events|]. intros; apply Forall_nil_2.
Qed.

Lemma handleGenerate_events (P : Event → Prop) w body :
  (∀ level line args, P (Console level line args)) →
  P (PrimaryCall (asString (prompt body)) (optionsOf body)) →
  (∀ url authorization,
     P (SecondaryCall url (asString (prompt body))
          (Z.min (Z.min (durationSeconds (musicLengthMs body)) 30) 30) authorization)) →
  P (SynthCall (Z.min (durationSeconds (musicLengthMs body)) 30)) →
  Forall P (trace (handleGenerate w body)).
Proof.
  intros Hconsole Hprimary Hsecondary Hsynth. unfold handleGenerate.
  apply Forall_trace_try_catch.
  - destruct (promptRejected (prompt body)); [apply Forall_nil_2|].
    apply Forall_trace_bind; [now apply produceMusic_events|].
    intros [buf usedFallback] _. apply Forall_nil_2.
  - intros e _. apply Forall_trace_bind; [now apply console_events|].
    intros; apply Forall_nil_2.
Qed.

Lemma Forall_omap_fallbackDuration (Q : Z → Prop) tr :
  Forall (λ e, ∀ d, fallbackDuration e = Some d → Q d) tr →
  Forall Q (fallbackDurations tr).
Proof.
  unfold fallbackDurations. induction 1 as [|e tr He _ IH]; [constructor|].
  cbn [omap list_omap]. destruct (fallbackDuration e) as [d|]; [|exact IH].
  constructor; auto.
Qed.

Lemma servingTier_not_primary pre tr :
  Forall (λ e, tierOf e ≠ Some Primary) tr →
  (∃ e, e ∈ tr ∧ is_Some (tierOf e)) →
  ∃ tier, servingTier (pre ++ tr) = Some tier ∧ tier ≠ Primary.
Proof.
  intros Hall (e & He & [t Ht]). unfold servingTier. rewrite omap_app, last_app.
  destruct (last (omap tierOf tr)) as [tier|] eqn:Hlast.
  - exists tier. split; [reflexivity|].
    apply last_Some_elem_of, list_elem_of_omap in Hlast as (e' & He' & Ht').
    rewrite Forall_forall in Hall. specialize (Hall e' He'). congruence.
  - apply last_None in Hlast.
    assert (t ∈ omap tierOf tr) as Hin by (apply list_elem_of_omap; eauto).
    rewrite Hlast in Hin. now apply elem_of_nil in Hin.
Qed.

Lemma servingTier_app_tail pre tail tier :
  servingTier tail = Some tier → servingTier (pre ++ tail) = Some tier.
Proof. unfold servingTier. intros Htail. now rewrite omap_app, last_app, Htail. Qed.

Lemma audioHeaders_primary w buf :
  headersAsBuilt (Date_now w) Primary (audioHeaders w false buf).
Proof.
  unfold headersAsBuilt, audioHeaders. repeat split.
  - intros [v Hv]. discriminate Hv.
  - intros Hne. now contradict Hne.
Qed.

Lemma audioHeaders_fallback w buf tier :
  tier ≠ Primary → headersAsBuilt (Date_now w) tier (audioHeaders w true buf).
Proof.
  intros Hne. unfold headersAsBuilt, audioHeaders.
  destruct tier; [done| |]; (repeat split; [intros _; assumption | intros _; eexists; reflexivity]).
Qed.

Lemma audioHeaders_length w usedFallback buf :
  audioHeaders w usedFallback buf !! "Content-Length" = Some (pretty (Z.of_nat (length buf))).
Proof. now destruct usedFallback. Qed.

(** ** The request handler *)

(** C10: a prompt made only of white-space characters is rejected with
    status 400 and the structured error, like a missing, empty or non-string
    prompt, and the run ends with an empty trace: no provider was called. *)
Theorem blank_prompt_rejected w body :
  blankPrompt (prompt body) →
  handleGenerate w body =
    Run (Ok (Json 400 "Prompt is required"
               "Please provide a text prompt describing the music you want to generate")) [].
Proof. intros Hblank. apply handleGenerate_rejected. now apply promptRejected_blank. Qed.

Lemma blank_prompt_rejected_witness :
  handleGenerate healthyWorld (promptOnly (JStr [32; 9; 10; 160; 8195; 12288])) =
    Run (Ok (Json 400 "Prompt is required"
               "Please provide a text prompt describing the music you want to generate")) [].
Proof. apply blank_prompt_rejected. cbn. repeat constructor. Defined.

(** C8: when the primary provider fails, the first secondary model fails
    (an empty payload, no payload, or a thrown error) and the second returns
    a non-empty payload, the handler sends the second model's payload, the
    serving tier is Secondary, the synthesizer is never called and the third
    model is never contacted: the first model's failure made the loop
    continue, not abort. *)
Theorem second_secondary_serves w body e bytes :
  promptRejected (prompt body) = false →
  elevenLabs_generateMusic w (asString (prompt body)) (optionsOf body) = Throw e →
  secondaryFailed (secondaryAnswer w body "facebook/musicgen-small") →
  secondaryAnswer w body "facebook/musicgen-medium" = Ok (Some bytes) →
  bytes ≠ [] →
  outcome (handleGenerate w body) = Ok (Send (audioHeaders w true bytes) bytes)
  ∧ servingTier (trace (handleGenerate w body)) = Some Secondary
  ∧ (∀ d, SynthCall d ∉ trace (handleGenerate w body))
  ∧ (∀ inputs d authorization,
       SecondaryCall (modelUrl "audiocraft/musicgen-small") inputs d authorization
       ∉ trace (handleGenerate w body)).
Proof.
  intros Hacc Hprimary Hfirst Hsecond Hne. unfold secondaryAnswer in *.
  pose proof (generateMusicFallback_served w (asString (prompt body))
                (Z.min (durationSeconds (musicLengthMs body)) 30)
                ["facebook/musicgen-small"] "facebook/musicgen-medium"
                ["audiocraft/musicgen-small"] bytes eq_refl
                ltac:(repeat constructor; exact Hfirst) Hsecond Hne) as Hfb.
  pose proof (produceMusic_fallback w body e Hprimary) as Hrun. cbv zeta in Hrun.
  rewrite Hfb in Hrun. cbn [outcome trace] in Hrun.
  rewrite (handleGenerate_sends w body _ _ _ Hacc Hrun). cbn [outcome trace].
  rewrite bind_singleton. unfold failedTurn.
  split; [reflexivity|].
  destruct (axios_post w (modelUrl "facebook/musicgen-small") _ _ _) as [data|e1];
    (split; [reflexivity|]); cbn [app]; split.
  all: intros; rewrite !elem_of_cons, elem_of_nil.
  all: intros Hin; repeat (destruct Hin as [Hin|Hin]); try discriminate Hin; try exact Hin.
  all: injection Hin as Hurl _ _ _; vm_compute in Hurl; discriminate Hurl.
Qed.

Lemma second_secondary_serves_witness :
  outcome (handleGenerate secondaryWorld (request None))
    = Ok (Send (audioHeaders secondaryWorld true [102; 76; 97; 67]) [102; 76; 97; 67])
  ∧ servingTier (trace (handleGenerate secondaryWorld (request None))) = Some Secondary
  ∧ (∀ d, SynthCall d ∉ trace (handleGenerate secondaryWorld (request None)))
  ∧ (∀ inputs d authorization,
       SecondaryCall (modelUrl "audiocraft/musicgen-small") inputs d authorization
       ∉ trace (handleGenerate secondaryWorld (request None))).
Proof.
  apply (second_secondary_serves secondaryWorld (request None)
           (MkError "rate limit exceeded") [102; 76; 97; 67]).
  - reflexivity.
  - reflexivity.
  - reflexivity.
  - reflexivity.
  - discriminate.
Defined.

(** C2, as amended: for every successful generation, Content-Type is
    audio/mpeg with a .mp3 attachment name when the primary provider served
    the request, and audio/wav with a .wav attachment name when a secondary
    provider or local synthesis served it; the marker header X-Music-Source
    is present exactly when a non-primary tier served; Content-Length is the
    byte length of the payload. *)
Theorem headers_follow_fallback_flag w body headers bytes :
  outcome (handleGenerate w body) = Ok (Send headers bytes) →
  ∃ tier,
    servingTier (trace (handleGenerate w body)) = Some tier
    ∧ headersAsBuilt (Date_now w) tier headers
    ∧ headers !! "Content-Length" = Some (pretty (Z.of_nat (length bytes))).
Proof.
  intros Hsend.
  destruct (promptRejected (prompt body)) eqn:Hacc.
  { rewrite handleGenerate_rejected in Hsend by exact Hacc. discriminate Hsend. }
  destruct (elevenLabs_generateMusic w (asString (prompt body)) (optionsOf body))
    as [buf|e] eqn:Hprimary.
  { pose proof (produceMusic_primary w body buf Hprimary) as Hrun.
    rewrite (handleGenerate_sends w body _ _ _ Hacc Hrun) in Hsend |- *.
    injection Hsend as <- <-. exists Primary.
    split; [reflexivity|].
    split; [exact (audioHeaders_primary w buf)|exact (audioHeaders_length w false buf)]. }
  pose proof (produceMusic_fallback w body e Hprimary) as Hrun. cbv zeta in Hrun.
  pose proof (generateMusicFallback_events (λ ev, tierOf ev ≠ Some Primary) w
                (asString (prompt body)) (Z.min (durationSeconds (musicLengthMs body)) 30)
                ltac:(discriminate) ltac:(discriminate) ltac:(discriminate)) as Hall.
  destruct (generateMusicFallback_starts w (asString (prompt body))
              (Z.min (durationSeconds (musicLengthMs body)) 30)) as (rest & Hstart).
  assert (Hcalled : ∃ ev,
            ev ∈ trace (generateMusicFallback w (asString (prompt body))
                          (Z.min (durationSeconds (musicLengthMs body)) 30))
            ∧ is_Some (tierOf ev)).
  { rewrite Hstart. eexists. split; [apply list_elem_of_further, list_elem_of_here|].
    eexists. reflexivity. }
  set (fb := generateMusicFallback w (asString (prompt body))
               (Z.min (durationSeconds (musicLengthMs body)) 30)) in *.
  assert (Htier : ∀ tail, Forall (λ ev, tierOf ev ≠ Some Primary) tail →
            ∀ before, ∃ tier, servingTier (before ++ trace fb ++ tail) = Some tier
                              ∧ tier ≠ Primary).
  { intros tail Htail before. apply servingTier_not_primary.
    - apply Forall_app. split; [exact Hall|exact Htail].
    - destruct Hcalled as (ev & Hev & Hsome). exists ev. split; [|exact Hsome].
      apply elem_of_app. now left. }
  destruct (outcome fb) as [buf|fe].
  - rewrite (handleGenerate_sends w body _ _ _ Hacc Hrun) in Hsend |- *.
    injection Hsend as <- <-. cbn [trace].
    edestruct Htier as (tier & Hserved & Hne); [|exists tier; split; [exact Hserved|]].
    { repeat constructor; discriminate. }
    split; [exact (audioHeaders_fallback w buf tier Hne)|exact (audioHeaders_length w true buf)].
  - destruct (generateSimpleTone _ _ _) as [tone|e'].
    + rewrite (handleGenerate_sends w body _ _ _ Hacc Hrun) in Hsend |- *.
      injection Hsend as <- <-. cbn [trace].
      edestruct Htier as (tier & Hserved & Hne); [|exists tier; split; [exact Hserved|]].
      { repeat constructor; discriminate. }
      split; [exact (audioHeaders_fallback w tone tier Hne)
             |exact (audioHeaders_length w true tone)].
    + rewrite (handleGenerate_fails w body _ _ Hacc Hrun) in Hsend. discriminate Hsend.
Qed.

Lemma headers_follow_fallback_flag_witness :
  ∃ tier,
    servingTier (trace (handleGenerate healthyWorld (request None))) = Some tier
    ∧ headersAsBuilt (Date_now healthyWorld) tier (audioHeaders healthyWorld false [73; 68; 51])
    ∧ audioHeaders healthyWorld false [73; 68; 51] !! "Content-Length"
      = Some (pretty (Z.of_nat (length [73; 68; 51]))).
Proof.
  apply (headers_follow_fallback_flag healthyWorld (request None)). reflexivity.
Defined.

(** C2, as stated, fails when a secondary provider serves: the second model
    of [secondaryWorld] answers, the serving tier is Secondary, and the
    response is labelled audio/wav, not audio/mpeg. *)
Lemma secondary_payload_labelled_wav :
  ¬ ∀ headers bytes tier,
      outcome (handleGenerate secondaryWorld (request None)) = Ok (Send headers bytes) →
      servingTier (trace (handleGenerate secondaryWorld (request None))) = Some tier →
      headersAsSpecified (Date_now secondaryWorld) tier headers.
Proof.
  intros Hclaim.
  destruct (Hclaim (audioHeaders secondaryWorld true [102; 76; 97; 67])
              [102; 76; 97; 67] Secondary) as (Htype & _).
  - vm_compute. reflexivity.
  - vm_compute. reflexivity.
  - vm_compute in Htype. discriminate Htype.
Qed.

(** C3, as amended: for every request whose musicLengthMs is omitted or a
    non-negative integer, every duration handed to a fallback tier, secondary
    provider or synthesizer, is the integer
    min(floor((musicLengthMs || 30000) / 1000), 30): it is clamped to at most
    30 and never negative, and it is positive exactly when musicLengthMs is
    omitted, zero, or at least 1000 (a length of 1 to 999 gives zero). *)
Theorem fallback_duration_clamped w body :
  lengthNotNegative (musicLengthMs body) →
  Forall (λ d, d = Z.min (durationSeconds (musicLengthMs body)) 30 ∧ 0 <= d <= 30)
    (fallbackDurations (trace (handleGenerate w body)))
  ∧ (1 <= Z.min (durationSeconds (musicLengthMs body)) 30
     ↔ wholeSeconds (musicLengthMs body)).
Proof.
  intros Hms.
  assert (Hd : 0 <= Z.min (durationSeconds (musicLengthMs body)) 30).
  { unfold lengthNotNegative, durationSeconds in *.
    destruct (musicLengthMs body) as [ms|]; [|vm_compute; discriminate].
    destruct (Z.eqb_spec ms 0); [vm_compute; discriminate|].
    Z.div_mod_to_equations. lia. }
  split.
  - apply Forall_omap_fallbackDuration, handleGenerate_events.
    + intros level line args d Hev. discriminate Hev.
    + intros d Hev. discriminate Hev.
    + intros url authorization d [= <-]. lia.
    + intros d [= <-]. lia.
  - unfold wholeSeconds, durationSeconds, lengthNotNegative in *.
    destruct (musicLengthMs body) as [ms|];
      [|split; [intros _; exact I|intros _; vm_compute; discriminate]].
    destruct (Z.eqb_spec ms 0) as [->|Hne].
    + split; [intros _; now left|intros _; vm_compute; discriminate].
    + split.
      * intros Hpos. right. Z.div_mod_to_equations. lia.
      * intros [->|Hge]; [lia|]. Z.div_mod_to_equations. lia.
Qed.

Lemma fallback_duration_clamped_witness :
  Forall (λ d, d = Z.min (durationSeconds (musicLengthMs (request (Some 600000)))) 30
               ∧ 0 <= d <= 30)
    (fallbackDurations (trace (handleGenerate deadWorld (request (Some 600000)))))
  ∧ (1 <= Z.min (durationSeconds (musicLengthMs (request (Some 600000)))) 30
     ↔ wholeSeconds (musicLengthMs (request (Some 600000)))).
Proof. apply fallback_duration_clamped. cbn. lia. Defined.

(** C3, as stated, fails for a sub-second length: with musicLengthMs = 500
    and every provider down, the secondary providers and the synthesizer are
    handed a duration of 0. *)
Lemma sub_second_length_gives_zero :
  ¬ Forall (λ d, 1 <= d <= 30)
      (fallbackDurations (trace (handleGenerate deadWorld (request (Some 500))))).
Proof.
  assert (Hruns : fallbackDurations (trace (handleGenerate deadWorld (request (Some 500))))
                  = [0; 0; 0; 0]) by (vm_compute; reflexivity).
  rewrite Hruns. intros Hall. apply Forall_cons in Hall as [Hzero _]. lia.
Qed.

(** ** Resilience *)

(** With a duration of zero or more seconds, no failure of a provider,
    thrown or empty, reaches the caller: the handler sends audio. *)
Lemma provider_failures_absorbed w body :
  promptRejected (prompt body) = false →
  0 <= Z.min (durationSeconds (musicLengthMs body)) 30 →
  2646000 <= kMaxLength w →
  ∃ headers bytes, outcome (handleGenerate w body) = Ok (Send headers bytes).
Proof.
  intros Hacc Hd Hmax.
  destruct (elevenLabs_generateMusic w (asString (prompt body)) (optionsOf body))
    as [buf|e] eqn:Hprimary.
  { pose proof (produceMusic_primary w body buf Hprimary) as Hrun.
    rewrite (handleGenerate_sends w body _ _ _ Hacc Hrun). eauto. }
  pose proof (produceMusic_fallback w body e Hprimary) as Hrun. cbv zeta in Hrun.
  destruct (outcome (generateMusicFallback w _ _)) as [buf|fe].
  - rewrite (handleGenerate_sends w body _ _ _ Hacc Hrun). eauto.
  - rewrite generateSimpleTone_ok in Hrun by (unfold numSamples, sampleRate; lia).
    rewrite (handleGenerate_sends w body _ _ _ Hacc Hrun). eauto.
Qed.

(** With every provider down the synthesizer serves, if the duration is not
    negative. *)
Lemma local_synthesis_serves w body e :
  promptRejected (prompt body) = false →
  elevenLabs_generateMusic w (asString (prompt body)) (optionsOf body) = Throw e →
  Forall (λ m, secondaryFailed (secondaryAnswer w body m)) models →
  0 <= Z.min (durationSeconds (musicLengthMs body)) 30 →
  2646000 <= kMaxLength w →
  ∃ tone,
    generateSimpleTone (kMaxLength w) (uninitialised w)
      (Z.min (durationSeconds (musicLengthMs body)) 30) = Ok tone
    ∧ outcome (handleGenerate w body) = Ok (Send (audioHeaders w true tone) tone)
    ∧ servingTier (trace (handleGenerate w body)) = Some LocalSynthesis.
Proof.
  intros Hacc Hprimary Hfailed Hd Hmax. unfold secondaryAnswer in Hfailed.
  pose proof (generateMusicFallback_local w _ _ Hfailed) as Hfb.
  pose proof (produceMusic_fallback w body e Hprimary) as Hrun. cbv zeta in Hrun.
  rewrite generateSimpleTone_ok in Hfb |- * by (unfold numSamples, sampleRate; lia).
  rewrite Hfb in Hrun. cbn [outcome trace] in Hrun.
  rewrite (handleGenerate_sends w body _ _ _ Hacc Hrun). cbn [outcome trace].
  eexists. split; [reflexivity|]. split; [reflexivity|].
  apply servingTier_app_tail. rewrite app_comm_cons, <- app_assoc.
  now apply servingTier_app_tail.
Qed.

(** With every provider down and a negative duration, each of the three
    calls of the synthesizer throws and the outer [catch] answers. *)
Lemma negative_duration_fails w body e :
  promptRejected (prompt body) = false →
  elevenLabs_generateMusic w (asString (prompt body)) (optionsOf body) = Throw e →
  Forall (λ m, secondaryFailed (secondaryAnswer w body m)) models →
  Z.min (durationSeconds (musicLengthMs body)) 30 < 0 →
  outcome (handleGenerate w body) =
    Ok (errorResponse
          (Buffer.ERR_OUT_OF_RANGE "size" (">= 0 && <= " +:+ pretty (kMaxLength w))
             (numSamples (Z.min (durationSeconds (musicLengthMs body)) 30) * 2))).
Proof.
  intros Hacc Hprimary Hfailed Hd. unfold secondaryAnswer in Hfailed.
  pose proof (generateMusicFallback_local w _ _ Hfailed) as Hfb.
  pose proof (produceMusic_fallback w body e Hprimary) as Hrun. cbv zeta in Hrun.
  rewrite generateSimpleTone_throws in Hfb, Hrun by lia.
  rewrite Hfb in Hrun. cbn [outcome trace] in Hrun.
  now rewrite (handleGenerate_fails w body _ _ Hacc Hrun).
Qed.

(** C1: provider failures are meant never to reach the caller, prompt
    validation being the only visible failure.  The handler breaks this for
    a negative musicLengthMs: with the valid prompt "calm piano",
    musicLengthMs = -1000 and every provider throwing, the synthesizer's
    allocation of -88200 bytes throws at each of its three calls and the
    caller receives status 500 instead of audio. *)
Theorem negative_length_reaches_caller :
  outcome (handleGenerate deadWorld (request (Some (-1000)))) =
    Ok (Json 500 "Failed to generate music"
          (message (Buffer.ERR_OUT_OF_RANGE "size" ">= 0 && <= 4294967296" (-88200))))
  ∧ fallbackDurations (trace (handleGenerate deadWorld (request (Some (-1000)))))
    = [-1; -1; -1; -1; -1; -1].
Proof. split; vm_compute; reflexivity. Qed.

(** * Further properties of the route *)

(** ** Every run of the fallback chain, case by case *)

Lemma secondaryFailed_or_served (r : result (option Buffer.t)) :
  secondaryFailed r ∨ ∃ bytes, r = Ok (Some bytes) ∧ bytes ≠ [].
Proof.
  destruct r as [[[|b bytes]|]|e]; cbn; eauto.
Qed.

(** Either some model is the first to answer with bytes, or all fail. *)
Lemma first_working_model (answer : string → result (option Buffer.t)) ms :
  (∃ failed model rest bytes,
     ms = failed ++ model :: rest
     ∧ Forall (λ m, secondaryFailed (answer m)) failed
     ∧ answer model = Ok (Some bytes) ∧ bytes ≠ [])
  ∨ Forall (λ m, secondaryFailed (answer m)) ms.
Proof.
  induction ms as [|m ms IH]; [right; constructor|].
  destruct (secondaryFailed_or_served (answer m)) as [Hfail|(bytes & Hans & Hne)].
  - destruct IH as [(failed & model & rest & bytes & -> & Hfailed & Hans & Hne)|Hall].
    + left. exists (m :: failed), model, rest, bytes. repeat split; auto.
    + right. constructor; assumption.
  - left. exists [], m, ms, bytes. repeat split; auto.
Qed.

Lemma secondaryCalls_failedTurns w text d ms :
  secondaryCalls (ms ≫= failedTurn w text d) =
    (λ m, (modelUrl m, text, Z.min d 30, "Bearer " +:+ apiKey w)) <$> ms.
Proof.
  unfold secondaryCalls. induction ms as [|m ms IH]; [reflexivity|].
  rewrite bind_cons, omap_app, IH. unfold failedTurn.
  now destruct (axios_post w (modelUrl m) text (Z.min d 30) ("Bearer " +:+ apiKey w)).
Qed.

Lemma synthCalls_failedTurns w text d ms : synthCalls (ms ≫= failedTurn w text d) = [].
Proof.
  unfold synthCalls. induction ms as [|m ms IH]; [reflexivity|].
  rewrite bind_cons, omap_app, IH. unfold failedTurn.
  now destruct (axios_post w (modelUrl m) text (Z.min d 30) ("Bearer " +:+ apiKey w)).
Qed.

Lemma tierOf_failedTurns w text d ms :
  omap tierOf (ms ≫= failedTurn w text d) = replicate (length ms) Secondary.
Proof.
  induction ms as [|m ms IH]; [reflexivity|].
  rewrite bind_cons, omap_app, IH. unfold failedTurn.
  now destruct (axios_post w (modelUrl m) text (Z.min d 30) ("Bearer " +:+ apiKey w)).
Qed.

Lemma clamp_twice x : Z.min (Z.min x 30) 30 = Z.min x 30.
Proof. lia. Qed.

(** After a primary failure a run of the handler is one of three: a model
    serves, the synthesizer serves, or the synthesizer throws. *)
Lemma handleGenerate_fallback_cases w body e :
  promptRejected (prompt body) = false →
  elevenLabs_generateMusic w (asString (prompt body)) (optionsOf body) = Throw e →
  let run := handleGenerate w body in
  let d := Z.min (durationSeconds (musicLengthMs body)) 30 in
  (∃ failed model rest bytes,
     models = failed ++ model :: rest
     ∧ Forall (λ m, secondaryFailed (secondaryAnswer w body m)) failed
     ∧ secondaryAnswer w body model = Ok (Some bytes) ∧ bytes ≠ []
     ∧ outcome run = Ok (Send (audioHeaders w true bytes) bytes)
     ∧ secondaryCalls (trace run) = expectedCall w body <$> (failed ++ [model])
     ∧ synthCalls (trace run) = []
     ∧ servingTier (trace run) = Some Secondary)
  ∨ (Forall (λ m, secondaryFailed (secondaryAnswer w body m)) models
     ∧ secondaryCalls (trace run) = expectedCall w body <$> models
     ∧ ((∃ tone,
           generateSimpleTone (kMaxLength w) (uninitialised w) d = Ok tone
           ∧ outcome run = Ok (Send (audioHeaders w true tone) tone)
           ∧ synthCalls (trace run) = [d]
           ∧ servingTier (trace run) = Some LocalSynthesis)
        ∨ (∃ e',
             generateSimpleTone (kMaxLength w) (uninitialised w) d = Throw e'
             ∧ outcome run = Ok (errorResponse e')
             ∧ synthCalls (trace run) = [d; d; d]))).
Proof.
  intros Hacc Hprimary run d. subst run.
  pose proof (produceMusic_fallback w body e Hprimary) as Hrun. cbv zeta in Hrun.
  fold d in Hrun.
  assert (Hexp : ∀ ms : list string,
            (λ m, (modelUrl m, asString (prompt body), Z.min d 30, "Bearer " +:+ apiKey w))
              <$> ms = expectedCall w body <$> ms).
  { intros ms. apply list_fmap_ext. intros _ m _. unfold expectedCall. fold d.
    now rewrite (Z.min_l d 30) by (unfold d; lia). }
  destruct (first_working_model (secondaryAnswer w body) models)
    as [(failed & model & rest & bytes & Hmodels & Hfailed & Hans & Hne)|Hall].
  - left. exists failed, model, rest, bytes.
    split; [exact Hmodels|]. split; [exact Hfailed|]. split; [exact Hans|].
    split; [exact Hne|].
    unfold secondaryAnswer in Hfailed, Hans. fold d in Hfailed, Hans.
    pose proof (generateMusicFallback_served w _ d failed model rest bytes
                  Hmodels Hfailed Hans Hne) as Hfb.
    rewrite Hfb in Hrun. cbn [outcome trace] in Hrun.
    rewrite (handleGenerate_sends w body _ _ _ Hacc Hrun). cbn [outcome trace].
    split; [reflexivity|]. split; [|split].
    + unfold secondaryCalls. cbn [app omap list_omap secondaryCallOf].
      rewrite !omap_app. fold (secondaryCalls (failed ≫= failedTurn w (asString (prompt body)) d)).
      rewrite secondaryCalls_failedTurns, Hexp, fmap_app. cbn.
      rewrite app_nil_r, (Z.min_l d 30) by (unfold d; lia). reflexivity.
    + unfold synthCalls. cbn [app omap list_omap synthCallOf]. rewrite !omap_app.
      fold (synthCalls (failed ≫= failedTurn w (asString (prompt body)) d)).
      now rewrite synthCalls_failedTurns.
    + apply servingTier_app_tail. unfold servingTier.
      cbn [app omap list_omap tierOf]. rewrite !omap_app. cbn [omap list_omap tierOf].
      now rewrite app_nil_r, last_snoc.
  - right. split; [exact Hall|].
    unfold secondaryAnswer in Hall. fold d in Hall.
    pose proof (generateMusicFallback_local w _ d Hall) as Hfb.
    destruct (generateSimpleTone (kMaxLength w) (uninitialised w) d) as [tone|e'] eqn:Htone;
      rewrite Hfb in Hrun; cbn [outcome trace] in Hrun.
    + rewrite (handleGenerate_sends w body _ _ _ Hacc Hrun). cbn [outcome trace]. split.
      * unfold secondaryCalls. cbn [app omap list_omap secondaryCallOf].
        rewrite !omap_app. fold (secondaryCalls (models ≫= failedTurn w (asString (prompt body)) d)).
        rewrite secondaryCalls_failedTurns, Hexp. cbn. rewrite ?app_nil_r. reflexivity.
      * left. exists tone. split; [reflexivity|]. split; [reflexivity|]. split.
        -- unfold synthCalls. cbn [app omap list_omap synthCallOf]. rewrite !omap_app.
           fold (synthCalls (models ≫= failedTurn w (asString (prompt body)) d)).
           now rewrite synthCalls_failedTurns.
        -- apply servingTier_app_tail. rewrite app_comm_cons, <- app_assoc.
           now apply servingTier_app_tail.
    + rewrite (handleGenerate_fails w body _ _ Hacc Hrun). cbn [outcome trace]. split.
      * unfold secondaryCalls. cbn [app omap list_omap secondaryCallOf].
        rewrite !omap_app. cbn [app omap list_omap secondaryCallOf]. rewrite ?omap_app.
        fold (secondaryCalls (models ≫= failedTurn w (asString (prompt body)) d)).
        rewrite secondaryCalls_failedTurns, Hexp. cbn. rewrite ?app_nil_r. reflexivity.
      * right. exists e'. split; [reflexivity|]. split; [reflexivity|].
        unfold synthCalls. cbn [app omap list_omap synthCallOf]. rewrite !omap_app.
        cbn [app omap list_omap synthCallOf]. rewrite ?omap_app.
        fold (synthCalls (models ≫= failedTurn w (asString (prompt body)) d)).
        now rewrite synthCalls_failedTurns.
Qed.

(** ** What the caller can receive *)

Lemma errorResponse_shape e :
  ∃ status msg,
    errorResponse e = Json status "Failed to generate music" msg
    ∧ status ∈ [401; 402; 404; 429; 500]
    ∧ msg ≠ "".
Proof.
  unfold errorResponse.
  eexists _, _. split; [reflexivity|]. split.
  - destruct (includes (message e) "API key"); [set_solver|].
    destruct (_ || _ || _); [set_solver|].
    destruct (includes (message e) "rate limit"); [set_solver|].
    destruct (_ || _); set_solver.
  - destruct (bool_decide (message e = "")) eqn:Hm; [discriminate|].
    now apply bool_decide_eq_false in Hm.
Qed.

Lemma promptRejected_false v : promptRejected v = false ↔ ¬ blankPrompt v.
Proof.
  rewrite <- promptRejected_blank. destruct (promptRejected v); split; done.
Qed.

(** X1: the handler never throws, and every response is one of three: an
    audio payload, the 400 validation error, or the error "Failed to generate
    music" with status 401, 402, 404, 429 or 500 and a non-empty message. *)
Theorem handler_always_responds w body :
  (∃ headers bytes, outcome (handleGenerate w body) = Ok (Send headers bytes))
  ∨ outcome (handleGenerate w body) =
      Ok (Json 400 "Prompt is required"
            "Please provide a text prompt describing the music you want to generate")
  ∨ (∃ status msg,
       outcome (handleGenerate w body) = Ok (Json status "Failed to generate music" msg)
       ∧ status ∈ [401; 402; 404; 429; 500] ∧ msg ≠ "").
Proof.
  destruct (promptRejected (prompt body)) eqn:Hacc.
  { right; left. now rewrite handleGenerate_rejected. }
  destruct (elevenLabs_generateMusic w (asString (prompt body)) (optionsOf body))
    as [buf|e] eqn:Hprimary.
  { left. pose proof (produceMusic_primary w body buf Hprimary) as Hrun.
    rewrite (handleGenerate_sends w body _ _ _ Hacc Hrun). eauto. }
  destruct (handleGenerate_fallback_cases w body e Hacc Hprimary)
    as [(failed & model & rest & bytes & _ & _ & _ & _ & Hout & _)
       |(_ & _ & [(tone & _ & Hout & _)|(e' & _ & Hout & _)])].
  - left. eauto.
  - left. eauto.
  - right; right. destruct (errorResponse_shape e') as (status & msg & Heq & Hst & Hmsg).
    exists status, msg. now rewrite Hout, Heq.
Qed.

(** X2: the handler answers status 400 exactly when the prompt is not a
    string or is a string of white space only; a string with one visible
    character is never turned away. *)
Theorem status_400_iff_blank w body :
  (∃ error msg, outcome (handleGenerate w body) = Ok (Json 400 error msg))
  ↔ blankPrompt (prompt body).
Proof.
  split.
  - intros (error & msg & Hout).
    destruct (promptRejected (prompt body)) eqn:Hacc; [now apply promptRejected_blank|].
    exfalso.
    destruct (elevenLabs_generateMusic w (asString (prompt body)) (optionsOf body))
      as [buf|e] eqn:Hprimary.
    { pose proof (produceMusic_primary w body buf Hprimary) as Hrun.
      rewrite (handleGenerate_sends w body _ _ _ Hacc Hrun) in Hout. discriminate Hout. }
    destruct (handleGenerate_fallback_cases w body e Hacc Hprimary)
      as [(failed & model & rest & bytes & _ & _ & _ & _ & Hout' & _)
         |(_ & _ & [(tone & _ & Hout' & _)|(e' & _ & Hout' & _)])];
      rewrite Hout' in Hout; try discriminate Hout.
    destruct (errorResponse_shape e') as (status & msg' & Heq & Hst & _).
    rewrite Heq in Hout. injection Hout as -> _ _.
    repeat (apply elem_of_cons in Hst as [Hst|Hst]; [discriminate Hst|]).
    now apply elem_of_nil in Hst.
  - intros Hblank. eexists _, _.
    rewrite handleGenerate_rejected by (now apply promptRejected_blank). reflexivity.
Qed.

(** X3: within the scope of this embedding (providers that reject with Error
    objects, a musicLengthMs that is omitted or an integer) and on a Node
    build whose buffers can hold a 30-second clip, the caller receives
    "Failed to generate music" in exactly one situation: the prompt is valid,
    the primary provider throws, all three secondary models fail, and the
    clamped duration is negative. *)
Theorem handler_fails_exactly w body :
  2646000 <= kMaxLength w →
  (∃ status msg,
     outcome (handleGenerate w body) = Ok (Json status "Failed to generate music" msg))
  ↔ (¬ blankPrompt (prompt body)
     ∧ Z.min (durationSeconds (musicLengthMs body)) 30 < 0
     ∧ (∃ e, elevenLabs_generateMusic w (asString (prompt body)) (optionsOf body) = Throw e)
     ∧ Forall (λ m, secondaryFailed (secondaryAnswer w body m)) models).
Proof.
  intros Hmax. split.
  - intros (status & msg & Hout).
    destruct (promptRejected (prompt body)) eqn:Hacc.
    { rewrite handleGenerate_rejected in Hout by exact Hacc. discriminate Hout. }
    split; [now apply promptRejected_false|].
    destruct (elevenLabs_generateMusic w (asString (prompt body)) (optionsOf body))
      as [buf|e] eqn:Hprimary.
    { pose proof (produceMusic_primary w body buf Hprimary) as Hrun.
      rewrite (handleGenerate_sends w body _ _ _ Hacc Hrun) in Hout. discriminate Hout. }
    destruct (handleGenerate_fallback_cases w body e Hacc Hprimary)
      as [(failed & model & rest & bytes & _ & _ & _ & _ & Hout' & _)
         |(Hall & _ & [(tone & _ & Hout' & _)|(e' & Htone & _)])];
      try (rewrite Hout' in Hout; discriminate Hout).
    split; [|split; [eauto|exact Hall]].
    destruct (Z.lt_ge_cases (Z.min (durationSeconds (musicLengthMs body)) 30) 0)
      as [Hneg|Hpos]; [exact Hneg|].
    rewrite generateSimpleTone_ok in Htone by (unfold numSamples, sampleRate; lia).
    discriminate Htone.
  - intros (Hacc & Hneg & (e & Hprimary) & Hall). apply promptRejected_false in Hacc.
    pose proof (negative_duration_fails w body e Hacc Hprimary Hall Hneg) as Hout.
    destruct (errorResponse_shape
                (Buffer.ERR_OUT_OF_RANGE "size" (">= 0 && <= " +:+ pretty (kMaxLength w))
                   (numSamples (Z.min (durationSeconds (musicLengthMs body)) 30) * 2)))
      as (status & msg & Heq & _).
    exists status, msg. now rewrite Hout, Heq.
Qed.

Lemma handler_fails_exactly_witness :
  (∃ status msg,
     outcome (handleGenerate deadWorld (request (Some (-1000))))
     = Ok (Json status "Failed to generate music" msg))
  ↔ (¬ blankPrompt (prompt (request (Some (-1000))))
     ∧ Z.min (durationSeconds (musicLengthMs (request (Some (-1000))))) 30 < 0
     ∧ (∃ e, elevenLabs_generateMusic deadWorld (asString (prompt (request (Some (-1000)))))
               (optionsOf (request (Some (-1000)))) = Throw e)
     ∧ Forall (λ m, secondaryFailed (secondaryAnswer deadWorld (request (Some (-1000))) m)) models).
Proof. apply handler_fails_exactly. cbn. lia. Defined.

(** X4: when the primary provider returns, its payload is sent unchanged,
    even an empty one, as audio/mpeg; the provider received the untrimmed
    prompt and the request's options as they came (musicLengthMs unclamped),
    and no secondary model and no synthesizer was called. *)
Theorem primary_success_passes_through w body buf :
  promptRejected (prompt body) = false →
  elevenLabs_generateMusic w (asString (prompt body)) (optionsOf body) = Ok buf →
  handleGenerate w body =
    Run (Ok (Send (audioHeaders w false buf) buf))
        [PrimaryCall (asString (prompt body)) (optionsOf body);
         Console Log "Music generated successfully using ElevenLabs" []].
Proof.
  intros Hacc Hprimary.
  exact (handleGenerate_sends w body _ _ _ Hacc (produceMusic_primary w body buf Hprimary)).
Qed.

Lemma primary_success_passes_through_witness :
  handleGenerate healthyWorld (request (Some 600000)) =
    Run (Ok (Send (audioHeaders healthyWorld false [73; 68; 51]) [73; 68; 51]))
        [PrimaryCall (asString (prompt (request (Some 600000))))
           (optionsOf (request (Some 600000)));
         Console Log "Music generated successfully using ElevenLabs" []].
Proof. apply primary_success_passes_through; reflexivity. Defined.

(** X5: after a primary failure, the first model of the list that answers
    with a non-empty payload serves, wherever it stands in the list: its
    bytes are sent, the models before it were each called once in order, no
    model after it is called, and the synthesizer is not called. *)
Theorem first_working_model_serves w body e failed model rest bytes :
  promptRejected (prompt body) = false →
  elevenLabs_generateMusic w (asString (prompt body)) (optionsOf body) = Throw e →
  models = failed ++ model :: rest →
  Forall (λ m, secondaryFailed (secondaryAnswer w body m)) failed →
  secondaryAnswer w body model = Ok (Some bytes) →
  bytes ≠ [] →
  outcome (handleGenerate w body) = Ok (Send (audioHeaders w true bytes) bytes)
  ∧ secondaryCalls (trace (handleGenerate w body))
    = expectedCall w body <$> (failed ++ [model])
  ∧ synthCalls (trace (handleGenerate w body)) = []
  ∧ servingTier (trace (handleGenerate w body)) = Some Secondary.
Proof.
  intros Hacc Hprimary Hmodels Hfailed Hans Hne.
  set (d := Z.min (durationSeconds (musicLengthMs body)) 30).
  pose proof (produceMusic_fallback w body e Hprimary) as Hrun. cbv zeta in Hrun.
  fold d in Hrun. unfold secondaryAnswer in Hfailed, Hans. fold d in Hfailed, Hans.
  pose proof (generateMusicFallback_served w _ d failed model rest bytes
                Hmodels Hfailed Hans Hne) as Hfb.
  rewrite Hfb in Hrun. cbn [outcome trace] in Hrun.
  rewrite (handleGenerate_sends w body _ _ _ Hacc Hrun). cbn [outcome trace].
  split; [reflexivity|]. split; [|split].
  - unfold secondaryCalls. cbn [app omap list_omap secondaryCallOf].
    rewrite !omap_app. fold (secondaryCalls (failed ≫= failedTurn w (asString (prompt body)) d)).
    rewrite secondaryCalls_failedTurns, fmap_app. cbn.
    rewrite app_nil_r, (Z.min_l d 30) by (unfold d; lia). reflexivity.
  - unfold synthCalls. cbn [app omap list_omap synthCallOf]. rewrite !omap_app.
    fold (synthCalls (failed ≫= failedTurn w (asString (prompt body)) d)).
    now rewrite synthCalls_failedTurns.
  - apply servingTier_app_tail. unfold servingTier.
    cbn [app omap list_omap tierOf]. rewrite !omap_app. cbn [omap list_omap tierOf].
    now rewrite app_nil_r, last_snoc.
Qed.


Lemma first_working_model_serves_witness :
  outcome (handleGenerate secondaryWorld (request (Some 5000)))
    = Ok (Send (audioHeaders secondaryWorld true [102; 76; 97; 67]) [102; 76; 97; 67])
  ∧ secondaryCalls (trace (handleGenerate secondaryWorld (request (Some 5000))))
    = expectedCall secondaryWorld (request (Some 5000))
        <$> (["facebook/musicgen-small"] ++ ["facebook/musicgen-medium"])
  ∧ synthCalls (trace (handleGenerate secondaryWorld (request (Some 5000)))) = []
  ∧ servingTier (trace (handleGenerate secondaryWorld (request (Some 5000)))) = Some Secondary.
Proof.
  apply (first_working_model_serves secondaryWorld (request (Some 5000))
           (MkError "rate limit exceeded") ["facebook/musicgen-small"]
           "facebook/musicgen-medium" ["audiocraft/musicgen-small"]).
  - reflexivity.
  - reflexivity.
  - reflexivity.
  - repeat constructor.
  - reflexivity.
  - discriminate.
Defined.

(** X6: in every run, the secondary models are called in the order of the
    list, each at most once, with the untrimmed prompt, the clamped duration
    and the bearer token: the calls made are a prefix of the three expected
    ones, and they stop at the first success. *)
Theorem secondary_calls_in_order w body :
  secondaryCalls (trace (handleGenerate w body)) `prefix_of` (expectedCall w body <$> models).
Proof.
  destruct (promptRejected (prompt body)) eqn:Hacc.
  { rewrite handleGenerate_rejected by exact Hacc. apply prefix_nil. }
  destruct (elevenLabs_generateMusic w (asString (prompt body)) (optionsOf body))
    as [buf|e] eqn:Hprimary.
  { pose proof (produceMusic_primary w body buf Hprimary) as Hrun.
    rewrite (handleGenerate_sends w body _ _ _ Hacc Hrun). apply prefix_nil. }
  destruct (handleGenerate_fallback_cases w body e Hacc Hprimary)
    as [(failed & model & rest & bytes & Hmodels & _ & _ & _ & _ & Hcalls & _)
       |(_ & Hcalls & _)]; rewrite Hcalls.
  - rewrite Hmodels. exists (expectedCall w body <$> rest).
    now rewrite <- fmap_app, <- app_assoc.
  - reflexivity.
Qed.

(** X7: the synthesizer is called only after all three secondary models were
    called.  In every run that calls it, the trace splits at the first call of
    the synthesizer: before it lie the three secondary calls, in order, and no
    synthesizer call; after it lies no secondary call; the call carries the
    clamped duration; and it is the only one exactly when the synthesizer
    returns, while a synthesizer that throws is called twice more, by the two
    catch blocks, with the same duration. *)
Theorem synth_only_after_all_models w body :
  synthCalls (trace (handleGenerate w body)) = []
  ∨ ∃ before after,
      trace (handleGenerate w body)
        = before ++ SynthCall (Z.min (durationSeconds (musicLengthMs body)) 30) :: after
      ∧ synthCalls before = []
      ∧ secondaryCalls before = expectedCall w body <$> models
      ∧ secondaryCalls after = []
      ∧ ((∃ tone,
            generateSimpleTone (kMaxLength w) (uninitialised w)
              (Z.min (durationSeconds (musicLengthMs body)) 30) = Ok tone
            ∧ synthCalls after = [])
         ∨ (∃ e',
              generateSimpleTone (kMaxLength w) (uninitialised w)
                (Z.min (durationSeconds (musicLengthMs body)) 30) = Throw e'
              ∧ synthCalls after
                = replicate 2 (Z.min (durationSeconds (musicLengthMs body)) 30))).
Proof.
  destruct (promptRejected (prompt body)) eqn:Hacc.
  { left. now rewrite handleGenerate_rejected. }
  destruct (elevenLabs_generateMusic w (asString (prompt body)) (optionsOf body))
    as [buf|e] eqn:Hprimary.
  { left. pose proof (produceMusic_primary w body buf Hprimary) as Hrun.
    now rewrite (handleGenerate_sends w body _ _ _ Hacc Hrun). }
  set (d := Z.min (durationSeconds (musicLengthMs body)) 30).
  destruct (first_working_model (secondaryAnswer w body) models)
    as [(failed & model & rest & bytes & Hmodels & Hfailed & Hans & Hne)|Hall].
  { left.
    destruct (handleGenerate_fallback_cases w body e Hacc Hprimary)
      as [(_ & _ & _ & _ & _ & _ & _ & _ & _ & _ & Hsynth & _)
         |(Hall & _)]; [exact Hsynth|].
    exfalso. rewrite Hmodels in Hall. apply Forall_app in Hall as [_ Hall].
    apply Forall_cons in Hall as [Hmodel _]. rewrite Hans in Hmodel. now apply Hne. }
  right.
  pose proof (produceMusic_fallback w body e Hprimary) as Hrun. cbv zeta in Hrun.
  fold d in Hrun. unfold secondaryAnswer in Hall. fold d in Hall.
  pose proof (generateMusicFallback_local w _ d Hall) as Hfb.
  assert (Hexp : secondaryCalls (models ≫= failedTurn w (asString (prompt body)) d)
                 = expectedCall w body <$> models).
  { rewrite secondaryCalls_failedTurns. apply list_fmap_ext. intros _ m _.
    unfold expectedCall. fold d. now rewrite (Z.min_l d 30) by (unfold d; lia). }
  exists ([PrimaryCall (asString (prompt body)) (optionsOf body);
           Console Warn "ElevenLabs music generation failed, trying fallback:"
             [LogMessage (message e)];
           Console Log "Using open source fallback music generation for prompt:"
             [LogText (take 50 (asString (prompt body)))]]
          ++ (models ≫= failedTurn w (asString (prompt body)) d)).
  destruct (generateSimpleTone (kMaxLength w) (uninitialised w) d) as [tone|e'] eqn:Htone;
    rewrite Hfb in Hrun; cbn [outcome trace] in Hrun.
  - exists [Console Log "Music generated successfully using open source fallback" []].
    rewrite (handleGenerate_sends w body _ _ _ Hacc Hrun). cbn [trace].
    split; [cbn [app]; now rewrite <- !app_assoc|].
    split; [unfold synthCalls; rewrite omap_app;
            fold (synthCalls (models ≫= failedTurn w (asString (prompt body)) d));
            now rewrite synthCalls_failedTurns|].
    split; [unfold secondaryCalls; rewrite omap_app;
            fold (secondaryCalls (models ≫= failedTurn w (asString (prompt body)) d));
            now rewrite Hexp|].
    split; [reflexivity|]. left. exists tone. now split.
  - exists [Console Error "All fallback methods failed, generating simple tone:" [LogError e'];
            SynthCall d;
            Console Warn "Fallback music generation failed, using simple tone generator:"
              [LogMessage (message e')];
            SynthCall d;
            Console Error "Music generation error:" [LogError e']].
    rewrite (handleGenerate_fails w body _ _ Hacc Hrun). cbn [trace].
    split; [cbn [app]; now rewrite <- !app_assoc|].
    split; [unfold synthCalls; rewrite omap_app;
            fold (synthCalls (models ≫= failedTurn w (asString (prompt body)) d));
            now rewrite synthCalls_failedTurns|].
    split; [unfold secondaryCalls; rewrite omap_app;
            fold (secondaryCalls (models ≫= failedTurn w (asString (prompt body)) d));
            now rewrite Hexp|].
    split; [reflexivity|]. right. exists e'. now split.
Qed.

(** ** The synthesizer's domain and the size of its clips *)

Lemma createWavFile_inv audioData sampleRate out :
  createWavFile audioData sampleRate = Ok out →
  out = wavHeaderBytes sampleRate (Z.of_nat (length audioData)) ++ audioData
  ∧ 0 <= sampleRate < 2147483648 ∧ Z.of_nat (length audioData) <= 4294967259.
Proof.
  intros Hrun.
  destruct (Z.lt_ge_cases sampleRate 0) as [Hlo|Hlo];
    [|destruct (Z.lt_ge_cases sampleRate 2147483648) as [Hhi|Hhi];
      [destruct (Z.le_gt_cases (Z.of_nat (length audioData)) 4294967259) as [Hlen|Hlen]|]].
  2:{ rewrite createWavFile_ok in Hrun by lia. injection Hrun as <-. repeat split; lia. }
  all: destruct (createWavFile_out_of_range audioData sampleRate) as [e He]; [lia|];
    rewrite He in Hrun; discriminate Hrun.
Qed.

Lemma generateSimpleTone_inv kMaxLength garbage d tone :
  generateSimpleTone kMaxLength garbage d = Ok tone →
  0 <= d <= 48695 ∧ 88200 * d <= kMaxLength
  ∧ tone = wavHeaderBytes sampleRate (numSamples d * 2) ++ pcmBytes d 0 (numSamples d)
  ∧ Z.of_nat (length tone) = 44 + 88200 * d.
Proof.
  intros Hrun.
  destruct (Z.lt_ge_cases d 0) as [Hneg|Hpos].
  { rewrite generateSimpleTone_throws in Hrun by lia. discriminate Hrun. }
  destruct (Z.le_gt_cases (numSamples d * 2) kMaxLength) as [Hfit|Hbig].
  2:{ rewrite generateSimpleTone_throws in Hrun by lia. discriminate Hrun. }
  assert (Hd : d <= 48695).
  { unfold generateSimpleTone in Hrun. rewrite synthesizePcm_ok in Hrun by lia.
    cbn [mbind result_bind] in Hrun.
    apply createWavFile_inv in Hrun as (_ & _ & Hlen).
    rewrite length_pcmBytes in Hlen. unfold numSamples, sampleRate in *. lia. }
  rewrite generateSimpleTone_ok in Hrun by lia.
  assert (Htone : tone = wavHeaderBytes sampleRate (numSamples d * 2)
                         ++ pcmBytes d 0 (numSamples d)) by congruence.
  subst tone. clear Hrun.
  rewrite length_app, length_wavHeaderBytes, length_pcmBytes.
  unfold numSamples, sampleRate in *. repeat split; lia.
Qed.

(** X8: the synthesizer returns a clip exactly for durations from 0 to 48695
    seconds that fit the allocator's limit, and the clip then has
    44 + 88200 * durationSeconds bytes; for a negative duration, a duration
    above 48695 (the data size no longer fits its 32-bit field) or a buffer
    above the limit it throws. *)
Theorem generateSimpleTone_domain kMaxLength garbage d :
  ((∃ tone, generateSimpleTone kMaxLength garbage d = Ok tone)
   ↔ (0 <= d <= 48695 ∧ 88200 * d <= kMaxLength))
  ∧ ∀ tone, generateSimpleTone kMaxLength garbage d = Ok tone →
            Z.of_nat (length tone) = 44 + 88200 * d.
Proof.
  split; [split|].
  - intros (tone & Hrun). apply generateSimpleTone_inv in Hrun. tauto.
  - intros [Hd Hfit]. eexists. apply generateSimpleTone_ok; [lia|].
    unfold numSamples, sampleRate. lia.
  - intros tone Hrun. now apply generateSimpleTone_inv in Hrun.
Qed.

(** X9: whenever the primary provider threw and audio is sent all the same,
    the body is not empty and the headers are those of the fallback
    (audio/wav, marker present): an empty secondary payload is never
    forwarded. *)
Theorem fallback_body_never_empty w body e headers bytes :
  elevenLabs_generateMusic w (asString (prompt body)) (optionsOf body) = Throw e →
  outcome (handleGenerate w body) = Ok (Send headers bytes) →
  bytes ≠ [] ∧ headers = audioHeaders w true bytes.
Proof.
  intros Hprimary Hout.
  destruct (promptRejected (prompt body)) eqn:Hacc.
  { rewrite handleGenerate_rejected in Hout by exact Hacc. discriminate Hout. }
  destruct (handleGenerate_fallback_cases w body e Hacc Hprimary)
    as [(failed & model & rest & bytes' & _ & _ & _ & Hne & Hout' & _)
       |(_ & _ & [(tone & Htone & Hout' & _)|(e' & _ & Hout' & _)])];
    rewrite Hout' in Hout.
  - injection Hout as <- <-. now split.
  - injection Hout as <- <-. split; [|reflexivity].
    apply generateSimpleTone_inv in Htone as (_ & _ & _ & Hlen).
    intros ->. cbn in Hlen. lia.
  - destruct (errorResponse_shape e') as (status & msg & Heq & _).
    rewrite Heq in Hout. discriminate Hout.
Qed.

Lemma fallback_body_never_empty_witness :
  [102; 76; 97; 67] ≠ []
  ∧ audioHeaders secondaryWorld true [102; 76; 97; 67]
    = audioHeaders secondaryWorld true [102; 76; 97; 67].
Proof.
  apply (fallback_body_never_empty secondaryWorld (request None)
           (MkError "rate limit exceeded")).
  - reflexivity.
  - vm_compute. reflexivity.
Defined.

(** X10: when every provider fails and the clamped duration d is not
    negative, the clip sent has exactly 44 + 88200 * d bytes, d being
    min(floor((musicLengthMs || 30000) / 1000), 30), and Content-Length
    announces that number; a request for ten minutes gets 2646044 bytes,
    a sub-second request the bare 44-byte header. *)
Theorem local_clip_size w body e :
  promptRejected (prompt body) = false →
  elevenLabs_generateMusic w (asString (prompt body)) (optionsOf body) = Throw e →
  Forall (λ m, secondaryFailed (secondaryAnswer w body m)) models →
  0 <= Z.min (durationSeconds (musicLengthMs body)) 30 →
  2646000 <= kMaxLength w →
  ∃ headers tone,
    outcome (handleGenerate w body) = Ok (Send headers tone)
    ∧ Z.of_nat (length tone) = 44 + 88200 * Z.min (durationSeconds (musicLengthMs body)) 30
    ∧ headers !! "Content-Length"
      = Some (pretty (44 + 88200 * Z.min (durationSeconds (musicLengthMs body)) 30)).
Proof.
  intros Hacc Hprimary Hall Hd Hmax.
  destruct (local_synthesis_serves w body e Hacc Hprimary Hall Hd Hmax)
    as (tone & Htone & Hout & _).
  apply generateSimpleTone_inv in Htone as (_ & _ & _ & Hlen).
  exists (audioHeaders w true tone), tone. split; [exact Hout|]. split; [exact Hlen|].
  rewrite <- Hlen. exact (audioHeaders_length w true tone).
Qed.

Lemma local_clip_size_witness :
  ∃ headers tone,
    outcome (handleGenerate deadWorld (request (Some 600000))) = Ok (Send headers tone)
    ∧ Z.of_nat (length tone)
      = 44 + 88200 * Z.min (durationSeconds (musicLengthMs (request (Some 600000)))) 30
    ∧ headers !! "Content-Length"
      = Some (pretty (44 + 88200
                      * Z.min (durationSeconds (musicLengthMs (request (Some 600000)))) 30)).
Proof.
  apply (local_clip_size deadWorld (request (Some 600000))
           (MkError "ElevenLabs API key is invalid")).
  - reflexivity.
  - reflexivity.
  - repeat constructor.
  - vm_compute. discriminate.
  - vm_compute. discriminate.
Defined.

(** X11: the encoder throws whenever the sample rate lies outside
    [0, 2147483647] or the payload has more than 4294967259 bytes (a 32-bit
    header field overflows), and returns whenever the sample rate lies inside
    and the payload has at most 1073741779 bytes (within the buffer limit of
    every Node build); whatever it returns carries the payload verbatim after
    byte 44, a RIFF size field equal to the file length minus 8, a data size
    field equal to the file length minus 44, and a byte rate equal to sample
    rate times block alignment. *)
Theorem createWavFile_domain audioData sampleRate :
  (sampleRate < 0 ∨ 2147483648 <= sampleRate ∨ 4294967259 < Z.of_nat (length audioData) →
   ∃ e, createWavFile audioData sampleRate = Throw e)
  ∧ (0 <= sampleRate < 2147483648 ∧ Z.of_nat (length audioData) <= 1073741779 →
     ∃ out, createWavFile audioData sampleRate = Ok out)
  ∧ ∀ out, createWavFile audioData sampleRate = Ok out →
      0 <= sampleRate < 2147483648
      ∧ Z.of_nat (length audioData) <= 4294967259
      ∧ drop 44 out = audioData
      ∧ readUInt32LE out 4 = Z.of_nat (length out) - 8
      ∧ readUInt32LE out 40 = Z.of_nat (length out) - 44
      ∧ readUInt32LE out 28 = readUInt32LE out 24 * readUInt16LE out 32.
Proof.
  split; [|split].
  - apply createWavFile_out_of_range.
  - intros [Hsr Hlen]. eexists. apply createWavFile_ok; lia.
  - intros out Hrun. apply createWavFile_inv in Hrun as (-> & Hsr & Hlen).
    rewrite length_app, length_wavHeaderBytes.
    assert (Hbr : sampleRate * 1 * 16 / 8 = 2 * sampleRate) by (Z.div_mod_to_equations; lia).
    split; [exact Hsr|]. split; [exact Hlen|].
    split; [reflexivity|]. unfold readUInt32LE, readUInt16LE.
    change (field _ 4 4) with (le32 (36 + Z.of_nat (length audioData))).
    change (field _ 40 4) with (le32 (Z.of_nat (length audioData))).
    change (field _ 28 4) with (le32 (sampleRate * 1 * 16 / 8)).
    change (field _ 24 4) with (le32 sampleRate).
    change (field _ 32 2) with (le16 (1 * 16 / 8)).
    rewrite !decodeLE_le32 by lia. rewrite decodeLE_le16 by field_ok.
    change (1 * 16 / 8) with 2. lia.
Qed.

(** ** The shape of the waveform *)

Lemma Math_floor_zero : Math_floor 0 = 0.
Proof. unfold Math_floor. exact (ZfloorZ 0). Qed.

Lemma envelope_onset k : envelope (samplesPerNote * k) = 0%R.
Proof.
  unfold envelope. rewrite Z.mul_comm, Z.rem_mul by (rewrite samplesPerNote_eq; lia).
  rewrite samplesPerNote_eq. destruct (Rlt_dec _ _); lra.
Qed.

(** X12: every note starts from silence.  For every positive duration and
    every note k of the clip (two per second), the sample stored at the
    note's first index, 22050 * k, is 0; k = 0 is the first sample of the
    clip. *)
Theorem note_onsets_silent kMaxLength garbage d k :
  0 < d → numSamples d * 2 <= kMaxLength → 0 <= k < 2 * d →
  ∃ pcm,
    synthesizePcm kMaxLength garbage d = Ok pcm
    ∧ readInt16LE pcm (2 * Z.to_nat (22050 * k)) = 0.
Proof.
  intros Hd Hmax Hk.
  destruct (stored_sample kMaxLength garbage d (22050 * k)) as (pcm & Hrun & Hread);
    [lia|lia|unfold numSamples, sampleRate; lia|].
  exists pcm. split; [exact Hrun|]. rewrite Hread. unfold amplitude.
  change 22050 with samplesPerNote. rewrite envelope_onset.
  rewrite Rmult_0_r, !Rmult_0_l. apply Math_floor_zero.
Qed.

Lemma note_onsets_silent_witness :
  ∃ pcm,
    synthesizePcm 4294967296 (λ _, 170) 2 = Ok pcm
    ∧ readInt16LE pcm (2 * Z.to_nat (22050 * 3)) = 0.
Proof. apply note_onsets_silent; unfold numSamples, sampleRate; lia. Defined.

Lemma envelope_last d : 0 < d → envelope (numSamples d - 1) = ((1 - 22049 / 22050) / 0.1)%R.
Proof.
  intros Hd. unfold envelope.
  assert (Hrem : Z.rem (numSamples d - 1) samplesPerNote = 22049).
  { rewrite Z.rem_mod_nonneg
      by (rewrite ?samplesPerNote_eq; unfold numSamples, sampleRate; lia).
    rewrite samplesPerNote_eq. symmetry.
    apply (Z.mod_unique_pos _ _ (2 * d - 1)); unfold numSamples, sampleRate; lia. }
  rewrite Hrem, samplesPerNote_eq.
  destruct (Rlt_dec _ _); [lra|]. destruct (Rgt_dec _ _); [reflexivity|lra].
Qed.

(** X13: every clip ends in silence.  For every positive duration the last
    stored sample is 0 or -1 (the floor of a fraction of magnitude below one):
    the note release and the global fade-out are both almost closed there. *)
Theorem clip_ends_quiet kMaxLength garbage d :
  0 < d → numSamples d * 2 <= kMaxLength →
  ∃ pcm,
    synthesizePcm kMaxLength garbage d = Ok pcm
    ∧ -1 <= readInt16LE pcm (2 * Z.to_nat (numSamples d - 1)) <= 0.
Proof.
  intros Hd Hmax.
  assert (HN : 44100 <= numSamples d) by (unfold numSamples, sampleRate; lia).
  destruct (stored_sample kMaxLength garbage d (numSamples d - 1)) as (pcm & Hrun & Hread);
    [lia..|].
  exists pcm. split; [exact Hrun|]. rewrite Hread. unfold amplitude.
  rewrite envelope_last by lia.
  pose proof (sample_bound d (numSamples d - 1)) as Hs.
  assert (Hg : (0 <= globalEnvelope d (numSamples d - 1) <= 1 / 4410)%R).
  { split; [apply globalEnvelope_bound; lia|]. unfold globalEnvelope.
    replace (numSamples d - (numSamples d - 1)) with 1 by lia.
    change (IZR sampleRate) with 44100%R.
    etransitivity; [apply Rmin_r|]. etransitivity; [apply Rmin_r|]. lra. }
  set (s := sample d (numSamples d - 1)) in *.
  set (g := globalEnvelope d (numSamples d - 1)) in *.
  assert (Hx : (-1 < s * ((1 - 22049 / 22050) / 0.1) * g * 12000 < 1)%R).
  { assert (0 <= ((1 - 22049 / 22050) / 0.1) * g * 12000 <= 0.002)%R by lra.
    rewrite !Rmult_assoc. rewrite <- (Rmult_assoc _ g). nra. }
  unfold Math_floor.
  pose proof (Zfloor_bound (s * ((1 - 22049 / 22050) / 0.1) * g * 12000)) as [Hlo Hhi].
  split.
  - apply Zfloor_lub. change (IZR (-1)) with (-1)%R. lra.
  - assert (IZR (Zfloor (s * ((1 - 22049 / 22050) / 0.1) * g * 12000)) < 1)%R as Hlt by lra.
    apply lt_IZR in Hlt. lia.
Qed.

Lemma clip_ends_quiet_witness :
  ∃ pcm,
    synthesizePcm 4294967296 (λ _, 170) 30 = Ok pcm
    ∧ -1 <= readInt16LE pcm (2 * Z.to_nat (numSamples 30 - 1)) <= 0.
Proof. apply clip_ends_quiet; unfold numSamples, sampleRate; lia. Defined.

(** X14: the melody walks up the scale and starts over.  Inside the clip the
    reduction modulo totalNotes never takes effect: during the k-th
    half-second, the base frequency is the entry k mod 8 of the C major
    scale, for every duration. *)
Theorem melody_walks_scale d k j :
  0 <= k < 2 * d → 0 <= j < 22050 →
  frequency d (22050 * k + j) = nth (Z.to_nat (k mod 8)) scale 0%R.
Proof.
  intros Hk Hj. unfold frequency, scaleIndex, noteIndex.
  rewrite samplesPerNote_eq.
  assert (Hq : (22050 * k + j) / 22050 = k).
  { symmetry. apply (Z.div_unique_pos _ _ _ j); lia. }
  rewrite Hq. change (Z.of_nat (length scale)) with 8.
  unfold totalNotes, notesPerSecond.
  rewrite (Z.rem_small k) by lia.
  now rewrite Z.rem_mod_nonneg by lia.
Qed.

Lemma melody_walks_scale_witness :
  frequency 30 (22050 * 9 + 100) = nth (Z.to_nat (9 mod 8)) scale 0%R.
Proof. apply melody_walks_scale; lia. Defined.

(** X15: the global fade bounds every sample.  At m samples from the nearer
    end of the clip the stored value v satisfies
    -12000 * m - 4410 < 4410 * v <= 12000 * m: over the first and the last
    100 ms the amplitude grows no faster than the linear ramp. *)
Theorem fade_bounds_samples kMaxLength garbage d i :
  0 < d → numSamples d * 2 <= kMaxLength → 0 <= i < numSamples d →
  ∃ pcm,
    synthesizePcm kMaxLength garbage d = Ok pcm
    ∧ -12000 * Z.min i (numSamples d - i) - 4410
      < 4410 * readInt16LE pcm (2 * Z.to_nat i)
      <= 12000 * Z.min i (numSamples d - i).
Proof.
  intros Hd Hmax Hi.
  destruct (stored_sample kMaxLength garbage d i) as (pcm & Hrun & Hread); [lia..|].
  exists pcm. split; [exact Hrun|]. rewrite Hread. unfold amplitude, Math_floor.
  pose proof (sample_bound d i) as Hs. pose proof (envelope_bound i (proj1 Hi)) as He.
  set (m := Z.min i (numSamples d - i)).
  assert (Hg : (0 <= globalEnvelope d i <= IZR m / 4410)%R).
  { split; [apply globalEnvelope_bound; lia|]. unfold globalEnvelope.
    change (IZR sampleRate) with 44100%R.
    etransitivity; [apply Rmin_r|].
    unfold m. destruct (Z.min_spec i (numSamples d - i)) as [[_ ->]|[_ ->]].
    - etransitivity; [apply Rmin_l|]. lra.
    - etransitivity; [apply Rmin_r|]. lra. }
  set (s := sample d i) in *. set (e := envelope i) in *.
  set (g := globalEnvelope d i) in *.
  assert (Hse : (-1 <= s * e <= 1)%R) by nra.
  assert (Hx : (- (12000 * IZR m / 4410) <= s * e * g * 12000 <= 12000 * IZR m / 4410)%R).
  { set (se := (s * e)%R) in *. nra. }
  pose proof (Zfloor_bound (s * e * g * 12000)) as [Hlo Hhi].
  set (v := Zfloor (s * e * g * 12000)) in *.
  split.
  - apply lt_IZR. rewrite minus_IZR, !mult_IZR. lra.
  - apply le_IZR. rewrite !mult_IZR. lra.
Qed.

Lemma fade_bounds_samples_witness :
  ∃ pcm,
    synthesizePcm 4294967296 (λ _, 170) 1 = Ok pcm
    ∧ -12000 * Z.min 441 (numSamples 1 - 441) - 4410
      < 4410 * readInt16LE pcm (2 * Z.to_nat 441)
      <= 12000 * Z.min 441 (numSamples 1 - 441).
Proof. apply fade_bounds_samples; unfold numSamples, sampleRate; lia. Defined.

(** * The voice mode context *)

Module VoiceModeFacts.
Import VoiceModeContext.

Ltac not_among Hin :=
  cbn in Hin;
  repeat (apply elem_of_cons in Hin as [Hin|Hin]; [discriminate Hin|]);
  now apply elem_of_nil in Hin.

(** X16: with voice mode on and a sentiment given, the mode argument of
    [speak] has no effect at all: the rate and pitch of the sentiment replace
    those configured for the mode, and every mode has the same volume. *)
Theorem speak_mode_irrelevant text mode1 mode2 tag :
  speak true text mode1 (Some tag) = speak true text mode2 (Some tag).
Proof.
  destruct mode1 as [[]|], mode2 as [[]|], tag; reflexivity.
Qed.

(** X17: [speak] stays silent exactly when voice mode is off and the mode is
    not 'error'; otherwise it makes one call of [Speech.speak], with the text
    it was given, in English, at volume 1.0. *)
Theorem speak_gate enabled text mode tag :
  (speak enabled text mode tag = [] ↔ enabled = false ∧ mode ≠ Some error)
  ∧ (speak enabled text mode tag = []
     ∨ ∃ options,
         speak enabled text mode tag = [SpeechSpeak text options]
         ∧ language options = "en"%string
         ∧ speech_volume options = 1.0%Q).
Proof.
  split.
  - destruct enabled, mode as [[]|], tag as [[]|]; cbn;
      (split; [intros H; first [discriminate H | split; [reflexivity|discriminate]]
              |intros [H1 H2]; first [discriminate H1 | reflexivity | now contradict H2]]).
  - destruct enabled, mode as [[]|], tag as [[]|]; cbn; eauto.
Qed.

(** X18: [toggleVoiceMode] never activates wake-word detection, and turning
    voice mode on says nothing.  The [speak] and [startWakeWordDetection] it
    calls belong to the render in which voice mode was still off, so both
    return at their first line; turning voice mode off, with the preference
    saved, deactivates detection and announces it. *)
Theorem toggle_on_is_silent setItem :
  (∀ enabled, SetIsWakeWordActive true ∉ toggleVoiceMode enabled setItem)
  ∧ (∀ text options, SpeechSpeak text options ∉ toggleVoiceMode false setItem)
  ∧ (∀ saved, setItem STORAGE_KEY "false" = Ok saved →
       toggleVoiceMode true setItem =
         [SetIsVoiceModeEnabled false; StorageSetItem STORAGE_KEY "false";
          SetIsWakeWordActive false;
          SpeechSpeak "Voice mode disabled."
            {| language := "en"; speech_pitch := 1.0; speech_rate := 0.85;
               speech_volume := 1.0 |}]).
Proof.
  split; [|split].
  - intros [] Hin; unfold toggleVoiceMode in Hin; cbn [negb] in Hin;
      destruct (setItem _ _); not_among Hin.
  - intros text options Hin. unfold toggleVoiceMode in Hin. cbn [negb] in Hin.
    destruct (setItem _ _); not_among Hin.
  - intros saved Hsaved. unfold toggleVoiceMode. cbn [negb Boolean_toString].
    now rewrite Hsaved.
Qed.

(** X19: the in-memory flag always flips, whether or not the preference could
    be saved (a failed save is logged, not rolled back); and when the save
    succeeds, the value stored under the storage key is the one the mount
    effect reads back as the new flag. *)
Theorem toggle_flips_and_persists enabled setItem storage :
  finalEnabled enabled (toggleVoiceMode enabled setItem) = negb enabled
  ∧ (∀ saved,
       setItem STORAGE_KEY (Boolean_toString (negb enabled)) = Ok saved →
       loadPreference
         (λ key, Ok (storageAfter storage (toggleVoiceMode enabled setItem) !! key))
       = [SetIsVoiceModeEnabled (negb enabled); SetIsLoading false]).
Proof.
  split.
  - unfold toggleVoiceMode. destruct enabled; cbn; destruct (setItem _ _); reflexivity.
  - intros saved Hsaved. unfold loadPreference.
    assert (Hst : storageAfter storage (toggleVoiceMode enabled setItem) !! STORAGE_KEY
                  = Some (Boolean_toString (negb enabled))).
    { unfold toggleVoiceMode, storageAfter. rewrite Hsaved.
      destruct enabled; cbn; apply lookup_insert_eq. }
    rewrite Hst. now destruct enabled.
Qed.

End VoiceModeFacts.

(** * The model loop, one turn at a time *)

(** X20: a model that fails is skipped, and only a thrown error leaves a
    line in the log.  The turn returns nothing, so the loop goes on; its trace
    is the call itself, followed by a console.warn carrying the error's
    message when the call threw, and by nothing when the answer was empty or
    had no data. *)
Theorem failed_model_is_skipped w text d model :
  secondaryFailed (axios_post w (modelUrl model) text (Z.min d 30) ("Bearer " +:+ apiKey w)) →
  outcome (tryModel w text d model) = Ok None
  ∧ trace (tryModel w text d model) =
      SecondaryCall (modelUrl model) text (Z.min d 30) ("Bearer " +:+ apiKey w)
      :: match axios_post w (modelUrl model) text (Z.min d 30) ("Bearer " +:+ apiKey w) with
         | Throw e =>
             [Console Warn ("Model " +:+ model +:+ " failed:") [LogMessage (message e)]]
         | Ok _ => []
         end.
Proof. intros Hfail. now rewrite (tryModel_failed w text d model Hfail). Qed.

Lemma failed_model_is_skipped_witness :
  outcome (tryModel secondaryWorld [104; 105] 12 "facebook/musicgen-small") = Ok None
  ∧ trace (tryModel secondaryWorld [104; 105] 12 "facebook/musicgen-small") =
      SecondaryCall (modelUrl "facebook/musicgen-small") [104; 105] (Z.min 12 30)
        ("Bearer " +:+ apiKey secondaryWorld)
      :: match axios_post secondaryWorld (modelUrl "facebook/musicgen-small") [104; 105]
                 (Z.min 12 30) ("Bearer " +:+ apiKey secondaryWorld) with
         | Throw e =>
             [Console Warn ("Model " +:+ "facebook/musicgen-small" +:+ " failed:")
                [LogMessage (message e)]]
         | Ok _ => []
         end.
Proof. apply failed_model_is_skipped. reflexivity. Defined.

(** X21: [generateMusicFallback] clamps only what it sends to the remote
    models.  For every duration it is called with, every secondary call
    carries the prompt and min(durationSeconds, 30), every call of the
    synthesizer carries durationSeconds itself, and the primary provider is
    never called. *)
Theorem fallback_clamps_remote_only w text d :
  Forall (λ e, match e with
               | SecondaryCall _ inputs duration _ => inputs = text ∧ duration = Z.min d 30
               | SynthCall durationSeconds => durationSeconds = d
               | PrimaryCall _ _ => False
               | Console _ _ _ => True
               end)
    (trace (generateMusicFallback w text d)).
Proof. apply generateMusicFallback_events; cbn; auto. Qed.
